(** * Airthings integrations: cloud polling adapter and BLE config flow

    A shallow embedding of
    - [homeassistant/components/airthings/__init__.py]  (cloud poll),
    - [homeassistant/components/airthings/sensor.py]    (cloud entities),
    - [homeassistant/components/airthings_ble/const.py],
    - [homeassistant/components/airthings_ble/config_flow.py] (BLE wizard),
    followed by the properties established for them.

    Python dictionaries are finite maps ([gmap]), sets are [gset]; code
    that raises is embedded with an explicit outcome type; the config
    flow, which mutates [self] and writes to the log, runs in a small
    state-and-exception monad. *)

From Stdlib Require Import ZArith String List.
From stdpp Require Import base option list strings gmap fin_maps.

Local Open Scope string_scope.

(* ===================================================================== *)
(** ** Cloud integration *)
(* ===================================================================== *)

Module Cloud.

(** Readings are passed through uninterpreted; [StateType] only has to
    tell Python's [None] from a number or a text. *)
Inductive StateType : Type :=
| PyNone
| PyNum (z : Z)
| PyStr (s : string).

(** One element of [AirthingsDevice.sensors]. *)
Record AirthingsSensor : Type := {
  sensor_type : string;
  value : StateType;
}.

(** The device reading bundle handed over by the SDK. *)
Record AirthingsDevice : Type := {
  serial_number : string;
  name : string;
  type : string;
  sensors : list AirthingsSensor;
}.

(** *** [__init__.py]: the poll *)

(** What the SDK call can raise: its domain error (the class
    [AirthingsError] and its subclasses), or anything else. *)
Inductive sdk_error : Type :=
| AirthingsError (msg : string)
| OtherError (cls : string) (msg : string).

(** [str(err)] *)
Definition str_of (err : sdk_error) : string :=
  match err with
  | AirthingsError msg => msg
  | OtherError _ msg => msg
  end.

(** Outcome of [airthings.update_devices()]. *)
Inductive sdk_outcome : Type :=
| SdkReturn (devices : gmap string AirthingsDevice)
| SdkRaise (err : sdk_error).

(** What leaves [_update_method] as an exception: [UpdateFailed(msg)]
    raised [from err] by its own handler, or an error of the SDK that no
    handler matches and that therefore passes through untouched. *)
Inductive update_exn : Type :=
| UpdateFailed (msg : string) (cause : sdk_error)
| Uncaught (err : sdk_error).

Inductive outcome (A : Type) : Type :=
| Return (a : A)
| Raise (e : update_exn).
Arguments Return {A} a.
Arguments Raise {A} e.

(** [_update_method], lines 36-41. *)
Definition _update_method (update_devices : sdk_outcome)
  : outcome (gmap string AirthingsDevice) :=
  match update_devices with
  | SdkReturn devices => Return devices
  | SdkRaise (AirthingsError _ as err) =>
      Raise (UpdateFailed ("Unable to fetch data: " ++ str_of err) err)
  | SdkRaise err => Raise (Uncaught err)
  end.

(** *** [sensor.py]: the description table *)

Inductive SensorDeviceClass : Type :=
| TEMPERATURE | HUMIDITY | PRESSURE | BATTERY | CO2
| VOLATILE_ORGANIC_COMPOUNDS_PARTS | SIGNAL_STRENGTH | PM1 | PM25.

Inductive EntityCategory : Type := DIAGNOSTIC.

(** The unit constants come from the host's [const] module; only their
    identity matters here. *)
Inductive unit_of_measurement : Type :=
| BQ_PER_M3
| CELSIUS
| PERCENTAGE
| MBAR
| CONCENTRATION_PARTS_PER_MILLION
| CONCENTRATION_PARTS_PER_BILLION
| SIGNAL_STRENGTH_DECIBELS
| CONCENTRATION_MICROGRAMS_PER_CUBIC_METER.

Record SensorEntityDescription : Type := {
  key : string;
  native_unit_of_measurement : option unit_of_measurement;
  device_class : option SensorDeviceClass;
  translation_key : option string;
  entity_category : option EntityCategory;
  entity_registry_enabled_default : bool;
}.

(** Constructor call with the keyword defaults of the host class. *)
Definition describe (k : string) (u : option unit_of_measurement)
    (dc : option SensorDeviceClass) (tk : option string)
  : SensorEntityDescription :=
  {| key := k; native_unit_of_measurement := u; device_class := dc;
     translation_key := tk; entity_category := None;
     entity_registry_enabled_default := true |}.

Definition diagnostic (d : SensorEntityDescription) : SensorEntityDescription :=
  {| key := key d;
     native_unit_of_measurement := native_unit_of_measurement d;
     device_class := device_class d;
     translation_key := translation_key d;
     entity_category := Some DIAGNOSTIC;
     entity_registry_enabled_default := entity_registry_enabled_default d |}.

Definition disabled_by_default (d : SensorEntityDescription)
  : SensorEntityDescription :=
  {| key := key d;
     native_unit_of_measurement := native_unit_of_measurement d;
     device_class := device_class d;
     translation_key := translation_key d;
     entity_category := entity_category d;
     entity_registry_enabled_default := false |}.

(** The dict literal of lines 32-99, in source order. *)
Definition SENSORS_items : list (string * SensorEntityDescription) :=
  [ ("radonShortTermAvg",
      describe "radonShortTermAvg" (Some BQ_PER_M3) None (Some "radon"));
    ("temp", describe "temp" (Some CELSIUS) (Some TEMPERATURE) None);
    ("humidity", describe "humidity" (Some PERCENTAGE) (Some HUMIDITY) None);
    ("pressure", describe "pressure" (Some MBAR) (Some PRESSURE) None);
    ("battery",
      diagnostic (describe "battery" (Some PERCENTAGE) (Some BATTERY) None));
    ("co2",
      describe "co2" (Some CONCENTRATION_PARTS_PER_MILLION) (Some CO2) None);
    ("voc",
      describe "voc" (Some CONCENTRATION_PARTS_PER_BILLION)
        (Some VOLATILE_ORGANIC_COMPOUNDS_PARTS) None);
    ("light", describe "light" (Some PERCENTAGE) None (Some "light"));
    ("virusRisk", describe "virusRisk" None None (Some "virus_risk"));
    ("mold", describe "mold" None None (Some "mold"));
    ("rssi",
      diagnostic (disabled_by_default
        (describe "rssi" (Some SIGNAL_STRENGTH_DECIBELS)
           (Some SIGNAL_STRENGTH) None)));
    ("pm1",
      describe "pm1" (Some CONCENTRATION_MICROGRAMS_PER_CUBIC_METER)
        (Some PM1) None);
    ("pm25",
      describe "pm25" (Some CONCENTRATION_MICROGRAMS_PER_CUBIC_METER)
        (Some PM25) None) ].

Definition SENSORS : gmap string SensorEntityDescription :=
  list_to_map SENSORS_items.

(** *** [sensor.py]: the entity *)

Record DeviceInfo : Type := {
  configuration_url : string;
  identifiers : string * string;
  info_name : string;
  manufacturer : string;
  model : string;
}.

Definition DOMAIN : string := "airthings".

(** The attributes [AirthingsHeaterEnergySensor.__init__] sets. *)
Record AirthingsHeaterEnergySensor : Type := {
  entity_description : SensorEntityDescription;
  _attr_unique_id : string;
  _id : string;
  _attr_device_info : DeviceInfo;
}.

(** [__init__], lines 131-155. *)
Definition new_sensor (airthings_device : AirthingsDevice)
    (description : SensorEntityDescription) : AirthingsHeaterEnergySensor :=
  {| entity_description := description;
     _attr_unique_id :=
       serial_number airthings_device ++ "_" ++ key description;
     _id := serial_number airthings_device;
     _attr_device_info :=
       {| configuration_url :=
            "https://dashboard.airthings.com/devices/"
              ++ serial_number airthings_device;
          identifiers := (DOMAIN, serial_number airthings_device);
          info_name := name airthings_device;
          manufacturer := "Airthings";
          model := type airthings_device |} |}.

(** The inner two clauses of the comprehension of lines 110-119: the
    sensors of one device, kept when their type is a key of [SENSORS]. *)
Definition device_entities (airthings_device : AirthingsDevice)
  : list AirthingsHeaterEnergySensor :=
  flat_map
    (fun sensor_types =>
       match SENSORS !! sensor_type sensor_types with
       | Some description => [new_sensor airthings_device description]
       | None => []
       end)
    (sensors airthings_device).

(** [coordinator.data.values()] *)
Definition values (data : gmap string AirthingsDevice) : list AirthingsDevice :=
  (map_to_list data).*2.

(** [async_setup_entry], lines 102-120: the list given to
    [async_add_entities]. *)
Definition async_setup_entry (data : gmap string AirthingsDevice)
  : list AirthingsHeaterEnergySensor :=
  flat_map device_entities (values data).

(** A property getter either returns or fails with [KeyError], when the
    entity's device is no longer in [coordinator.data]. *)
Inductive getter (A : Type) : Type :=
| Got (a : A)
| KeyError (k : string).
Arguments Got {A} a.
Arguments KeyError {A} k.

(** The loop of [native_value] and its final [return None], lines 160-163. *)
Fixpoint scan_value (k : string) (l : list AirthingsSensor) : StateType :=
  match l with
  | [] => PyNone
  | sensor :: rest =>
      if String.eqb (sensor_type sensor) k then value sensor
      else scan_value k rest
  end.

(** The loop of [available] and its final [return False], lines 168-171. *)
Fixpoint scan_available (k : string) (l : list AirthingsSensor) : bool :=
  match l with
  | [] => false
  | sensor :: rest =>
      if String.eqb (sensor_type sensor) k then true
      else scan_available k rest
  end.

Definition native_value (data : gmap string AirthingsDevice)
    (self : AirthingsHeaterEnergySensor) : getter StateType :=
  match data !! _id self with
  | None => KeyError (_id self)
  | Some device => Got (scan_value (key (entity_description self)) (sensors device))
  end.

Definition available (data : gmap string AirthingsDevice)
    (self : AirthingsHeaterEnergySensor) : getter bool :=
  match data !! _id self with
  | None => KeyError (_id self)
  | Some device =>
      Got (scan_available (key (entity_description self)) (sensors device))
  end.

End Cloud.

(* ===================================================================== *)
(** ** Bluetooth integration: the config flow *)
(* ===================================================================== *)

Module Ble.

(** *** [const.py] *)

Definition DOMAIN : string := "airthings_ble".
Definition MFCT_ID : Z := 820.

(** *** Python exceptions *)

(** The classes that play a part, as far as [except] clauses tell them
    apart.  [OtherException] is any further subclass of [Exception];
    [NonException] is a [BaseException] outside [Exception] (a
    cancellation, a keyboard interrupt). *)
Inductive exn_class : Type :=
| BleakError
| AirthingsDeviceUpdateError
| AbortFlow
| UnboundLocalError
| IndexError
| KeyError
| OtherException (cls : string)
| NonException (cls : string).

Record exn : Type := {
  exn_cls : exn_class;
  args : list string;
}.

Definition is_BleakError (e : exn) : bool :=
  match exn_cls e with BleakError => true | _ => false end.

Definition is_AirthingsDeviceUpdateError (e : exn) : bool :=
  match exn_cls e with AirthingsDeviceUpdateError => true | _ => false end.

(** [isinstance(e, Exception)] *)
Definition is_Exception (e : exn) : bool :=
  match exn_cls e with NonException _ => false | _ => true end.

(** *** Data *)

Record BluetoothServiceInfo : Type := {
  info_name : string;
  address : string;
  manufacturer_data : gmap Z string;
  service_uuids : list string;
}.

(** The connectable handle the host resolves for an address. *)
Record BLEDevice : Type := { ble_address : string }.

Record AirthingsFirmware : Type := {
  current_firmware : string;
  needed_firmware : string;
  need_fw_upgrade : bool;
}.

(** The device identity object of the BLE SDK; [friendly_name] stands
    for the result of the method of that name. *)
Record AirthingsDevice : Type := {
  friendly_name : string;
  identifier : option string;
  firmware : AirthingsFirmware;
}.

(** [AirthingsBluetoothDeviceData()]: the SDK's reader object. *)
Inductive AirthingsBluetoothDeviceData : Type := new_reader.

Record Discovery : Type := {
  name : string;
  discovery_info : BluetoothServiceInfo;
  device : AirthingsDevice;
}.

Record DeviceAndData : Type := {
  dd_device : AirthingsDevice;
  dd_data : AirthingsBluetoothDeviceData;
}.

Definition SERVICE_UUIDS : list string :=
  [ "b42e1f6e-ade7-11e4-89d3-123b93f75cba";
    "b42e4a8e-ade7-11e4-89d3-123b93f75cba";
    "b42e1c08-ade7-11e4-89d3-123b93f75cba";
    "b42e3882-ade7-11e4-89d3-123b93f75cba" ].

(** Truth value of an optional string: [None] and [""] are false. *)
Definition truthy (o : option string) : bool :=
  match o with
  | None => false
  | Some s => negb (String.eqb s "")
  end.

(** [get_name], lines 42-48. *)
Definition get_name (d : DeviceAndData) : string :=
  let name := friendly_name (dd_device d) in
  let identifier := identifier (dd_device d) in
  if truthy identifier then name ++ " (" ++ default "" identifier ++ ")"
  else name.

(** [needle in haystack] on strings. *)
Fixpoint str_contains (needle haystack : string) : bool :=
  String.prefix needle haystack
  || match haystack with
     | EmptyString => false
     | String _ rest => str_contains needle rest
     end.

(** *** The flow object, the host and the monad *)

Inductive log_level : Type := DEBUG | WARNING | ERROR.

(** What a step does to the outside: log records and the two outbound
    calls of a device-data fetch.  [LogException] is a log record whose
    last argument is the exception object itself; how the logging
    machinery renders it is up to the class of the exception. *)
Inductive event : Type :=
| Log (level : log_level) (fmt : string) (params : list string)
| LogException (level : log_level) (fmt : string) (params : list string)
    (err : exn)
| ResolveHandle (address : string)
| UpdateDevice (ble_device : BLEDevice).

(** The attributes of [AirthingsConfigFlow] and the parts of
    [self.context] it uses, with the record of its effects. *)
Record Flow : Type := {
  unique_id : option string;
  _discovered_device : option Discovery;
  _discovered_devices : gmap string Discovery;
  title_placeholders : option (gmap string string);
  trace : list event;
}.

(** [__init__], lines 67-70. *)
Definition new_flow : Flow :=
  {| unique_id := None; _discovered_device := None;
     _discovered_devices := ∅; title_placeholders := None; trace := [] |}.

(** Result of [update_device] of the BLE SDK. *)
Inductive sdk_outcome : Type :=
| SdkReturn (d : AirthingsDevice)
| SdkRaise (e : exn).

(** The host and the SDK as one step sees them. *)
Record Host : Type := {
  current_ids : gset string;
  discovered_service_info : list BluetoothServiceInfo;
  ble_device_from_address : string → option BLEDevice;
  update_device : BLEDevice → sdk_outcome;
}.

Inductive outcome (A : Type) : Type :=
| Return (a : A)
| Raise (e : exn).
Arguments Return {A} a.
Arguments Raise {A} e.

Definition M (A : Type) : Type := Flow → outcome A * Flow.

Definition ret {A} (a : A) : M A := fun self => (Return a, self).

Definition raise {A} (e : exn) : M A := fun self => (Raise e, self).

Definition bind {A B} (m : M A) (k : A → M B) : M B :=
  fun self =>
    match m self with
    | (Return a, self') => k a self'
    | (Raise e, self') => (Raise e, self')
    end.

(** [try: m  except ... as e: h e] with a handler for every exception;
    a handler re-raises what its clauses do not match. *)
Definition try_except {A} (m : M A) (h : exn → M A) : M A :=
  fun self =>
    match m self with
    | (Return a, self') => (Return a, self')
    | (Raise e, self') => h e self'
    end.

Definition get : M Flow := fun self => (Return self, self).

Definition emit (ev : event) : M () :=
  fun self =>
    (Return (),
     {| unique_id := unique_id self;
        _discovered_device := _discovered_device self;
        _discovered_devices := _discovered_devices self;
        title_placeholders := title_placeholders self;
        trace := trace self ++ [ev] |}).

Definition set_unique_id (u : string) : M () :=
  fun self =>
    (Return (),
     {| unique_id := Some u;
        _discovered_device := _discovered_device self;
        _discovered_devices := _discovered_devices self;
        title_placeholders := title_placeholders self;
        trace := trace self |}).

Definition set_discovered_device (d : Discovery) : M () :=
  fun self =>
    (Return (),
     {| unique_id := unique_id self;
        _discovered_device := Some d;
        _discovered_devices := _discovered_devices self;
        title_placeholders := title_placeholders self;
        trace := trace self |}).

Definition set_discovered_devices_item (k : string) (d : Discovery) : M () :=
  fun self =>
    (Return (),
     {| unique_id := unique_id self;
        _discovered_device := _discovered_device self;
        _discovered_devices := <[k := d]> (_discovered_devices self);
        title_placeholders := title_placeholders self;
        trace := trace self |}).

Definition set_title_placeholders (p : gmap string string) : M () :=
  fun self =>
    (Return (),
     {| unique_id := unique_id self;
        _discovered_device := _discovered_device self;
        _discovered_devices := _discovered_devices self;
        title_placeholders := Some p;
        trace := trace self |}).

#[global] Instance M_ret : MRet M := @ret.
#[global] Instance M_bind : MBind M := fun A B k m => bind m k.

(** *** Host primitives

    The flow calls helpers of the host's [ConfigFlow] base class and of
    its Bluetooth component, none of which is part of the integration. *)

(** Modelled from the spec: [ConfigFlow.async_set_unique_id] is missing;
    it records the identifier of the device the flow is about. *)
Definition async_set_unique_id (unique_id : string) : M () :=
  set_unique_id unique_id.

(** Modelled from the spec: [ConfigFlow._abort_if_unique_id_configured]
    is missing; the flow "aborts immediately if the device's unique
    identifier is already configured", with reason [already_configured].
    The helper aborts by raising [AbortFlow]. *)
Definition _abort_if_unique_id_configured (hass : Host) : M () :=
  self ← get;
  match unique_id self with
  | Some u =>
      if bool_decide (u ∈ current_ids hass)
      then raise {| exn_cls := AbortFlow; args := ["already_configured"] |}
      else mret ()
  | None => mret ()
  end.

(** Modelled from the spec: [ConfigFlow._async_current_ids] is missing;
    it gives the unique ids of the configured entries. *)
Definition _async_current_ids (hass : Host) : gset string := current_ids hass.

(** The three kinds of result a step hands back to the host. *)
Inductive ConfigFlowResult : Type :=
| AbortResult (reason : string)
| CreateEntryResult (title : string) (data : gmap string string)
| FormResult (step_id : string)
    (data_schema : option (gmap string string))
    (description_placeholders : option (gmap string string))
    (last_step : option bool).

Definition async_abort (reason : string) : ConfigFlowResult :=
  AbortResult reason.

Definition async_create_entry (title : string) (data : gmap string string)
  : ConfigFlowResult :=
  CreateEntryResult title data.

Definition async_show_form (step_id : string)
    (data_schema : option (gmap string string))
    (description_placeholders : option (gmap string string))
    (last_step : option bool) : ConfigFlowResult :=
  FormResult step_id data_schema description_placeholders last_step.

Definition CONF_ADDRESS : string := "address".

(** [d[k]] on a dict: [KeyError] when the key is missing. *)
Definition getitem {V} (d : gmap string V) (k : string) : M V :=
  match d !! k with
  | Some v => mret v
  | None => raise {| exn_cls := KeyError; args := [k] |}
  end.

Definition bool_str (b : bool) : string := if b then "True" else "False".

(** *** [_get_device_data], lines 72-98 *)

(** The [try] statement of lines 84-97.  Its value is the binding of
    the local [device] when control leaves the statement normally:
    [Some] after the assignment of line 85, [None] when a handler ran to
    its end, since the assignment never happened. *)
Definition try_update_device (hass : Host)
    (discovery_info : BluetoothServiceInfo) (ble_device : BLEDevice)
  : M (option AirthingsDevice) :=
  emit (UpdateDevice ble_device);;
  match update_device hass ble_device with
  | SdkReturn device => mret (Some device)
  | SdkRaise err =>
      if is_BleakError err then
        emit (LogException ERROR
                "Error connecting to and getting data from %s: %s"
                [address discovery_info] err);;
        raise {| exn_cls := AirthingsDeviceUpdateError;
                 args := ["Failed getting device data"] |}
      else if is_Exception err then
        emit (LogException ERROR "Unknown error occurred from %s: %s"
                [address discovery_info] err);;
        match args err with
        | arg0 :: _ =>
            emit (Log ERROR "There was an error: %s" [arg0]);;
            mret None
        | [] =>
            raise {| exn_cls := IndexError;
                     args := ["tuple index out of range"] |}
        end
      else raise err
  end.

Definition _get_device_data (hass : Host)
    (discovery_info : BluetoothServiceInfo) : M DeviceAndData :=
  emit (ResolveHandle (address discovery_info));;
  match ble_device_from_address hass (address discovery_info) with
  | None =>
      emit (Log DEBUG "no ble_device in _get_device_data" []);;
      raise {| exn_cls := AirthingsDeviceUpdateError;
               args := ["No ble_device"] |}
  | Some ble_device =>
      let airthings := new_reader in
      device ← try_update_device hass discovery_info ble_device;
      match device with
      | Some device => mret {| dd_device := device; dd_data := airthings |}
      | None =>
          raise {| exn_cls := UnboundLocalError;
                   args := ["cannot access local variable 'device' where it is not associated with a value"] |}
      end
  end.

(** The two [except] clauses that follow each call of
    [_get_device_data] (lines 112-115 and 194-197). *)
Definition fetch_or_abort (hass : Host)
    (discovery_info : BluetoothServiceInfo)
  : M (DeviceAndData + ConfigFlowResult) :=
  try_except
    (device ← _get_device_data hass discovery_info; mret (inl device))
    (fun e =>
       if is_AirthingsDeviceUpdateError e
       then mret (inr (async_abort "cannot_connect"))
       else if is_Exception e
       then mret (inr (async_abort "unknown"))
       else raise e).

(** *** The steps *)

(** Stand-in for the [%s] rendering of a service info in a debug record. *)
Definition repr_info (discovery_info : BluetoothServiceInfo) : string :=
  info_name discovery_info ++ " " ++ address discovery_info.

(** [async_step_bluetooth_confirm], lines 125-141. *)
Definition async_step_bluetooth_confirm
    (user_input : option (gmap string string)) : M ConfigFlowResult :=
  emit (Log DEBUG "async_step_bluetooth_confirm" []);;
  self ← get;
  match user_input with
  | Some _ =>
      match title_placeholders self with
      | Some placeholders =>
          title ← getitem placeholders "name";
          mret (async_create_entry title ∅)
      | None => raise {| exn_cls := KeyError; args := ["title_placeholders"] |}
      end
  | None =>
      match title_placeholders self with
      | Some placeholders =>
          mret (async_show_form "bluetooth_confirm" None (Some placeholders)
                  (Some true))
      | None => raise {| exn_cls := KeyError; args := ["title_placeholders"] |}
      end
  end.

(** [async_step_bluetooth], lines 100-123. *)
Definition async_step_bluetooth (hass : Host)
    (discovery_info : BluetoothServiceInfo) : M ConfigFlowResult :=
  emit (Log DEBUG "async_step_bluetooth" []);;
  emit (Log DEBUG "Discovered BT device: %s" [repr_info discovery_info]);;
  async_set_unique_id (address discovery_info);;
  _abort_if_unique_id_configured hass;;
  fetched ← fetch_or_abort hass discovery_info;
  match fetched with
  | inr aborted => mret aborted
  | inl device =>
      let name := get_name device in
      set_title_placeholders {[ "name" := name ]};;
      set_discovered_device
        {| name := name; discovery_info := discovery_info;
           device := dd_device device |};;
      async_step_bluetooth_confirm None
  end.

(** The condition of lines 183-186. *)
Definition unknown_services (discovery_info : BluetoothServiceInfo) : bool :=
  negb (existsb (fun uuid => bool_decide (uuid ∈ SERVICE_UUIDS))
          (service_uuids discovery_info))
  && negb (str_contains "Tern" (info_name discovery_info)).

(** The [for] loop of lines 175-202.  [Some r] is the [return r] that
    leaves the function from inside the loop. *)
Fixpoint scan (hass : Host) (current_addresses : gset string)
    (infos : list BluetoothServiceInfo) : M (option ConfigFlowResult) :=
  match infos with
  | [] => mret None
  | discovery_info :: rest =>
      self ← get;
      let address := address discovery_info in
      if bool_decide (address ∈ current_addresses)
         || bool_decide (is_Some (_discovered_devices self !! address))
      then scan hass current_addresses rest
      else if negb (bool_decide
                      (is_Some (manufacturer_data discovery_info !! MFCT_ID)))
      then scan hass current_addresses rest
      else if unknown_services discovery_info
      then
        emit (Log WARNING "Skipping %s" [info_name discovery_info]);;
        scan hass current_addresses rest
      else
        emit (Log DEBUG "Continuing with %s" [info_name discovery_info]);;
        fetched ← fetch_or_abort hass discovery_info;
        match fetched with
        | inr aborted => mret (Some aborted)
        | inl device =>
            let name := get_name device in
            set_discovered_devices_item address
              {| name := name; discovery_info := discovery_info;
                 device := dd_device device |};;
            scan hass current_addresses rest
        end
  end.

(** [async_step_user], lines 143-218. *)
Definition async_step_user (hass : Host)
    (user_input : option (gmap string string)) : M ConfigFlowResult :=
  emit (Log DEBUG "async_step_user" []);;
  match user_input with
  | Some user_input =>
      address ← getitem user_input CONF_ADDRESS;
      async_set_unique_id address;;
      _abort_if_unique_id_configured hass;;
      self ← get;
      discovery ← getitem (_discovered_devices self) address;
      emit (Log DEBUG "FW: %s - %s - %s"
              [current_firmware (firmware (device discovery));
               needed_firmware (firmware (device discovery));
               bool_str (need_fw_upgrade (firmware (device discovery)))]);;
      if need_fw_upgrade (firmware (device discovery))
      then mret (async_abort "firmware_upgrade_required")
      else
        set_title_placeholders {[ "name" := name discovery ]};;
        set_discovered_device discovery;;
        mret (async_create_entry (name discovery) ∅)
  | None =>
      let current_addresses := _async_current_ids hass in
      returned ← scan hass current_addresses (discovered_service_info hass);
      match returned with
      | Some result => mret result
      | None =>
          self ← get;
          if bool_decide (_discovered_devices self = ∅)
          then mret (async_abort "no_devices_found")
          else
            let titles := name <$> _discovered_devices self in
            mret (async_show_form "user" (Some titles) None None)
      end
  end.

(** *** The host driving a flow *)

Inductive step_call : Type :=
| StepBluetooth (discovery_info : BluetoothServiceInfo)
| StepBluetoothConfirm (user_input : option (gmap string string))
| StepUser (user_input : option (gmap string string)).

Definition dispatch (hass : Host) (call : step_call) : M ConfigFlowResult :=
  match call with
  | StepBluetooth discovery_info => async_step_bluetooth hass discovery_info
  | StepBluetoothConfirm user_input => async_step_bluetooth_confirm user_input
  | StepUser user_input => async_step_user hass user_input
  end.

(** Modelled from the spec: the host's flow manager is missing; it calls
    the step handler and turns an [AbortFlow] raised by a helper into the
    abort result of the same reason.  Any other exception leaves the
    step as an error. *)
Definition handle_step (hass : Host) (call : step_call) (self : Flow)
  : outcome ConfigFlowResult * Flow :=
  match dispatch hass call self with
  | (Raise e, self') =>
      match exn_cls e, args e with
      | AbortFlow, reason :: _ => (Return (async_abort reason), self')
      | _, _ => (Raise e, self')
      end
  | r => r
  end.

(** A session: the host calls one step after the other on the same flow
    object, each time in the state it is in by then, until a step ends
    the flow (an abort, a created entry, an error).  The results of the
    steps that ran, in order. *)
Fixpoint session (calls : list (Host * step_call)) (self : Flow)
  : list (outcome ConfigFlowResult) :=
  match calls with
  | [] => []
  | (hass, call) :: rest =>
      match handle_step hass call self with
      | (Return (FormResult _ _ _ _ as r), self') =>
          Return r :: session rest self'
      | (r, _) => [r]
      end
  end.

(** The outbound calls of device-data fetches in a trace. *)
Definition is_fetch (ev : event) : bool :=
  match ev with
  | ResolveHandle _ | UpdateDevice _ => true
  | Log _ _ _ | LogException _ _ _ _ => false
  end.

Definition fetches (tr : list event) : list event := List.filter is_fetch tr.

End Ble.

(* ===================================================================== *)
(** ** Cloud integration: the entry life cycle *)
(* ===================================================================== *)

Module CloudEntry.

(** [SCAN_INTERVAL = timedelta(minutes=6)] *)
Definition SCAN_INTERVAL_minutes : Z := 6.

(** The config entry of the host, as far as [__init__.py] reads it. *)
Record ConfigEntry : Type := {
  entry_id : string;
  entry_data : gmap string string;
}.

(** The HTTP client the host shares between integrations. *)
Inductive AsyncClient : Type := shared_async_client.

(** The SDK client built at lines 30-34. *)
Record Airthings : Type := {
  client_id : string;
  client_secret : string;
  websession : AsyncClient;
}.

(** The coordinator built at lines 43-49; [data] is [None] until a
    refresh has filled it. *)
Record DataUpdateCoordinator : Type := {
  coordinator_name : string;
  client : Airthings;
  update_interval_minutes : Z;
  data : option (gmap string Cloud.AirthingsDevice);
}.

(** What a life-cycle hook can end with: a [KeyError] of one of its own
    subscripts, or whatever the host raised in a call it awaited. *)
Inductive hook_exn : Type :=
| KeyError (k : string)
| HostError (e : string).

Inductive outcome (A : Type) : Type :=
| Return (a : A)
| Raise (e : hook_exn).
Arguments Return {A} a.
Arguments Raise {A} e.

(** [hass.data], seen as a dict of dicts of coordinators, which is what
    the domain of this integration holds in it. *)
Abbreviation hass_data := (gmap string (gmap string DataUpdateCoordinator)).

(** The host calls the hooks make, taken as they answer.  Those of the
    setup are handed [hass] and may change [hass.data] on the way:
    [get_async_client] (which files the shared client in [hass.data]
    when it creates it), the first refresh of a coordinator (which gives
    it its data or raises) and the forwarding of the entry to the
    platforms.  The last one is the unloading of the platforms. *)
Record Host : Type := {
  get_async_client : hass_data → AsyncClient * hass_data;
  async_config_entry_first_refresh :
    DataUpdateCoordinator → hass_data
    → outcome DataUpdateCoordinator * hass_data;
  async_forward_entry_setups :
    ConfigEntry → hass_data → outcome () * hass_data;
  async_unload_platforms : ConfigEntry → outcome bool;
}.

(** [d.setdefault(k, {})] *)
Definition setdefault (k : string) (d : hass_data) : hass_data :=
  match d !! k with
  | Some _ => d
  | None => <[k := ∅]> d
  end.

Section Hooks.

(** The two keys of [entry.data]; their values are constants of modules
    that are not part of the integration's sources here. *)
Variables CONF_ID CONF_SECRET : string.

(** [async_setup_entry], lines 26-56. *)
Definition async_setup_entry (host : Host) (data : hass_data)
    (entry : ConfigEntry) : outcome bool * hass_data :=
  let data := setdefault Cloud.DOMAIN data in
  match entry_data entry !! CONF_ID with
  | None => (Raise (KeyError CONF_ID), data)
  | Some id =>
      match entry_data entry !! CONF_SECRET with
      | None => (Raise (KeyError CONF_SECRET), data)
      | Some secret =>
          let (session, data) := get_async_client host data in
          let airthings :=
            {| client_id := id; client_secret := secret;
               websession := session |} in
          let coordinator :=
            {| coordinator_name := Cloud.DOMAIN; client := airthings;
               update_interval_minutes := SCAN_INTERVAL_minutes;
               data := None |} in
          match async_config_entry_first_refresh host coordinator data with
          | (Raise e, data) => (Raise e, data)
          | (Return coordinator, data) =>
              match data !! Cloud.DOMAIN with
              | None => (Raise (KeyError Cloud.DOMAIN), data)
              | Some registry =>
                  let data :=
                    <[Cloud.DOMAIN :=
                        <[entry_id entry := coordinator]> registry]> data in
                  match async_forward_entry_setups host entry data with
                  | (Raise e, data) => (Raise e, data)
                  | (Return _, data) => (Return true, data)
                  end
              end
          end
      end
  end.

(** [async_unload_entry], lines 59-65. *)
Definition async_unload_entry (host : Host) (data : hass_data)
    (entry : ConfigEntry) : outcome bool * hass_data :=
  match async_unload_platforms host entry with
  | Raise e => (Raise e, data)
  | Return unload_ok =>
      if unload_ok then
        match data !! Cloud.DOMAIN with
        | None => (Raise (KeyError Cloud.DOMAIN), data)
        | Some registry =>
            match registry !! entry_id entry with
            | None => (Raise (KeyError (entry_id entry)), data)
            | Some _ =>
                (Return unload_ok,
                 <[Cloud.DOMAIN := delete (entry_id entry) registry]> data)
            end
        end
      else (Return unload_ok, data)
  end.

End Hooks.

End CloudEntry.

(* ===================================================================== *)
(** ** Vocabulary of the statements *)
(* ===================================================================== *)

(** The (device, sensor) pairs the comprehension of [async_setup_entry]
    ranges over, in iteration order. *)
Definition iteration (data : gmap string Cloud.AirthingsDevice)
  : list (Cloud.AirthingsDevice * Cloud.AirthingsSensor) :=
  flat_map (fun d => map (pair d) (Cloud.sensors d)) (Cloud.values data).

(** The sensor of a pair has a type the description table knows. *)
Definition known (p : Cloud.AirthingsDevice * Cloud.AirthingsSensor) : Prop :=
  is_Some (Cloud.SENSORS !! Cloud.sensor_type p.2).

#[global] Instance known_dec p : Decision (known p).
Proof. unfold known. apply _. Defined.

(** Entity [e] is the one built for pair [p]. *)
Definition entity_of (e : Cloud.AirthingsHeaterEnergySensor)
    (p : Cloud.AirthingsDevice * Cloud.AirthingsSensor) : Prop :=
  Cloud.SENSORS !! Cloud.sensor_type p.2 = Some (Cloud.entity_description e)
  ∧ Cloud.key (Cloud.entity_description e) = Cloud.sensor_type p.2
  ∧ e = Cloud.new_sensor p.1 (Cloud.entity_description e).

(** The flow object after the events [evs] were recorded. *)
Definition logged (self : Ble.Flow) (evs : list Ble.event) : Ble.Flow :=
  {| Ble.unique_id := Ble.unique_id self;
     Ble._discovered_device := Ble._discovered_device self;
     Ble._discovered_devices := Ble._discovered_devices self;
     Ble.title_placeholders := Ble.title_placeholders self;
     Ble.trace := (Ble.trace self ++ evs)%list |}.

(** How a device-data fetch ends, and what it does on the way: the
    fetch reads nothing of the flow object. *)
Definition fetch_outcome (hass : Ble.Host) (info : Ble.BluetoothServiceInfo)
  : Ble.outcome Ble.DeviceAndData :=
  (Ble._get_device_data hass info Ble.new_flow).1.

Definition fetch_events (hass : Ble.Host) (info : Ble.BluetoothServiceInfo)
  : list Ble.event :=
  Ble.trace (Ble._get_device_data hass info Ble.new_flow).2.

(** [hay] has [needle] as a substring. *)
Definition contains_text (needle hay : string) : Prop :=
  ∃ pre post, hay = pre ++ needle ++ post.

(** The scan of the user step passes over an advertisement: its address
    is configured or was discovered before, or its manufacturer data has
    no entry for id 820, or none of its service UUIDs is a known one and
    its name does not contain "Tern". *)
Definition filtered_out (configured : gset string)
    (discovered : gmap string Ble.Discovery)
    (info : Ble.BluetoothServiceInfo) : Prop :=
  Ble.address info ∈ configured
  ∨ is_Some (discovered !! Ble.address info)
  ∨ Ble.manufacturer_data info !! 820%Z = None
  ∨ ((∀ uuid, uuid ∈ Ble.service_uuids info → uuid ∉ Ble.SERVICE_UUIDS)
     ∧ ¬ contains_text "Tern" (Ble.info_name info)).

(** The three tests of the scan loop that end in [continue]. *)
Definition skipped (configured : gset string)
    (discovered : gmap string Ble.Discovery)
    (info : Ble.BluetoothServiceInfo) : bool :=
  (bool_decide (Ble.address info ∈ configured)
   || bool_decide (is_Some (discovered !! Ble.address info)))
  || negb (bool_decide (is_Some (Ble.manufacturer_data info !! Ble.MFCT_ID)))
  || Ble.unknown_services info.

(** What the loop records when it passes over an advertisement: the
    warning of line 187 when the third test is the one that fires. *)
Definition skip_events (configured : gset string)
    (discovered : gmap string Ble.Discovery)
    (info : Ble.BluetoothServiceInfo) : list Ble.event :=
  if (bool_decide (Ble.address info ∈ configured)
      || bool_decide (is_Some (discovered !! Ble.address info)))
     || negb (bool_decide
                (is_Some (Ble.manufacturer_data info !! Ble.MFCT_ID)))
  then []
  else [Ble.Log Ble.WARNING "Skipping %s" [Ble.info_name info]].

(** The flow object after [self._discovered_devices[k] = d]. *)
Definition discover (self : Ble.Flow) (k : string) (d : Ble.Discovery)
  : Ble.Flow :=
  {| Ble.unique_id := Ble.unique_id self;
     Ble._discovered_device := Ble._discovered_device self;
     Ble._discovered_devices := <[k := d]> (Ble._discovered_devices self);
     Ble.title_placeholders := Ble.title_placeholders self;
     Ble.trace := Ble.trace self |}.

(** The abort reason the callers of [_get_device_data] choose for an
    exception. *)
Definition abort_reason (e : Ble.exn) : string :=
  if Ble.is_AirthingsDeviceUpdateError e then "cannot_connect" else "unknown".

(** No underscore occurs in [s]. *)
Fixpoint no_underscore (s : string) : bool :=
  match s with
  | EmptyString => true
  | String c rest => negb (Ascii.eqb c (Ascii.ascii_of_nat 95)) && no_underscore rest
  end.

(** The coordinator [async_setup_entry] builds for a client id, a secret
    and the shared HTTP client, before its first refresh. *)
Definition built_coordinator (id secret : string)
    (session : CloudEntry.AsyncClient) : CloudEntry.DataUpdateCoordinator :=
  {| CloudEntry.coordinator_name := Cloud.DOMAIN;
     CloudEntry.client :=
       {| CloudEntry.client_id := id; CloudEntry.client_secret := secret;
          CloudEntry.websession := session |};
     CloudEntry.update_interval_minutes := CloudEntry.SCAN_INTERVAL_minutes;
     CloudEntry.data := None |}.

(** The host calls of the setup leave the dict of the cloud domain in
    [hass.data] as they find it. *)
Definition keeps_domain (host : CloudEntry.Host) : Prop :=
  (∀ d, (CloudEntry.get_async_client host d).2 !! Cloud.DOMAIN
        = d !! Cloud.DOMAIN)
  ∧ (∀ c d, (CloudEntry.async_config_entry_first_refresh host c d).2
            !! Cloud.DOMAIN = d !! Cloud.DOMAIN)
  ∧ (∀ e d, (CloudEntry.async_forward_entry_setups host e d).2
            !! Cloud.DOMAIN = d !! Cloud.DOMAIN).

(** The coordinators registered for the cloud domain. *)
Definition registry_of
    (data : gmap string (gmap string CloudEntry.DataUpdateCoordinator))
  : gmap string CloudEntry.DataUpdateCoordinator :=
  default ∅ (data !! Cloud.DOMAIN).

(** The addresses for which a trace asks the host for a handle. *)
Definition resolved_addresses (evs : list Ble.event) : list string :=
  omap (fun ev => match ev with
                  | Ble.ResolveHandle a => Some a
                  | _ => None
                  end) evs.

(** The discovery the scan loop stores for an advertisement whose fetch
    returned [d] (lines 199-202). *)
Definition discovery_of (info : Ble.BluetoothServiceInfo)
    (d : Ble.DeviceAndData) : Ble.Discovery :=
  {| Ble.name := Ble.get_name d; Ble.discovery_info := info;
     Ble.device := Ble.dd_device d |}.

(** The runs of the scan loop, one rule for each way an iteration can
    go: the list is exhausted; the advertisement is passed over; its
    fetch returns and the device is stored; its fetch raises an
    exception and the function returns an abort; its fetch raises
    something that is no exception, which leaves the loop as it is. *)
Inductive scan_run (hass : Ble.Host) (ids : gset string)
  : list Ble.BluetoothServiceInfo → Ble.Flow
    → Ble.outcome (option Ble.ConfigFlowResult) → Ble.Flow → Prop :=
| run_done self :
    scan_run hass ids [] self (Ble.Return None) self
| run_skip info rest self r self' :
    skipped ids (Ble._discovered_devices self) info = true →
    scan_run hass ids rest
      (logged self (skip_events ids (Ble._discovered_devices self) info))
      r self' →
    scan_run hass ids (info :: rest) self r self'
| run_found info rest self d r self' :
    skipped ids (Ble._discovered_devices self) info = false →
    fetch_outcome hass info = Ble.Return d →
    scan_run hass ids rest
      (discover
         (logged self
            (Ble.Log Ble.DEBUG "Continuing with %s" [Ble.info_name info]
             :: fetch_events hass info))
         (Ble.address info) (discovery_of info d))
      r self' →
    scan_run hass ids (info :: rest) self r self'
| run_abort info rest self e :
    skipped ids (Ble._discovered_devices self) info = false →
    fetch_outcome hass info = Ble.Raise e →
    Ble.is_Exception e = true →
    scan_run hass ids (info :: rest) self
      (Ble.Return (Some (Ble.AbortResult (abort_reason e))))
      (logged self
         (Ble.Log Ble.DEBUG "Continuing with %s" [Ble.info_name info]
          :: fetch_events hass info))
| run_raise info rest self e :
    skipped ids (Ble._discovered_devices self) info = false →
    fetch_outcome hass info = Ble.Raise e →
    Ble.is_Exception e = false →
    scan_run hass ids (info :: rest) self (Ble.Raise e)
      (logged self
         (Ble.Log Ble.DEBUG "Continuing with %s" [Ble.info_name info]
          :: fetch_events hass info)).

(* ===================================================================== *)
(** ** Sample data *)
(* ===================================================================== *)

Module Sample.

(** A cloud device with two known sensor types and one the table lacks. *)
Definition wave : Cloud.AirthingsDevice :=
  {| Cloud.serial_number := "2960000001";
     Cloud.name := "Living room";
     Cloud.type := "WAVE_PLUS";
     Cloud.sensors :=
       [ {| Cloud.sensor_type := "temp"; Cloud.value := Cloud.PyNum 21 |};
         {| Cloud.sensor_type := "lux"; Cloud.value := Cloud.PyNum 3 |};
         {| Cloud.sensor_type := "humidity"; Cloud.value := Cloud.PyNum 40 |} ] |}.

Definition polled : gmap string Cloud.AirthingsDevice :=
  {[ "2960000001" := wave ]}.

Definition humidity_entity : Cloud.AirthingsHeaterEnergySensor :=
  Cloud.new_sensor wave
    (Cloud.describe "humidity" (Some Cloud.PERCENTAGE) (Some Cloud.HUMIDITY)
       None).

Definition up_to_date : Ble.AirthingsFirmware :=
  {| Ble.current_firmware := "T-SUB-2.6.1";
     Ble.needed_firmware := "T-SUB-2.6.1";
     Ble.need_fw_upgrade := false |}.

Definition outdated : Ble.AirthingsFirmware :=
  {| Ble.current_firmware := "T-SUB-2.6.0";
     Ble.needed_firmware := "T-SUB-2.6.1";
     Ble.need_fw_upgrade := true |}.

Definition wave_plus : Ble.AirthingsDevice :=
  {| Ble.friendly_name := "Airthings Wave Plus";
     Ble.identifier := Some "123456";
     Ble.firmware := up_to_date |}.

Definition wave_enhance : Ble.AirthingsDevice :=
  {| Ble.friendly_name := "Airthings Wave Enhance";
     Ble.identifier := None;
     Ble.firmware := outdated |}.

Definition advert (address name : string) : Ble.BluetoothServiceInfo :=
  {| Ble.info_name := name;
     Ble.address := address;
     Ble.manufacturer_data := {[ 820%Z := "payload" ]};
     Ble.service_uuids := ["b42e1c08-ade7-11e4-89d3-123b93f75cba"] |}.

Definition adv1 : Ble.BluetoothServiceInfo := advert "AA:BB:CC:00:00:01" "Wave".
Definition adv2 : Ble.BluetoothServiceInfo := advert "AA:BB:CC:00:00:02" "Wave".
Definition adv3 : Ble.BluetoothServiceInfo := advert "AA:BB:CC:00:00:03" "Wave".

(** No manufacturer id 820. *)
Definition foreign : Ble.BluetoothServiceInfo :=
  {| Ble.info_name := "Headset";
     Ble.address := "11:22:33:00:00:01";
     Ble.manufacturer_data := {[ 76%Z := "payload" ]};
     Ble.service_uuids := [] |}.

(** Manufacturer id 820, but an unknown service and no "Tern" in the name. *)
Definition stranger : Ble.BluetoothServiceInfo :=
  {| Ble.info_name := "Intern";
     Ble.address := "11:22:33:00:00:02";
     Ble.manufacturer_data := {[ 820%Z := "payload" ]};
     Ble.service_uuids := ["0000180a-0000-1000-8000-00805f9b34fb"] |}.

Definition handle_of (address : string) : option Ble.BLEDevice :=
  Some {| Ble.ble_address := address |}.

Definition value_error : Ble.exn :=
  {| Ble.exn_cls := Ble.OtherException "ValueError"; Ble.args := ["boom"] |}.

Definition timeout : Ble.exn :=
  {| Ble.exn_cls := Ble.BleakError; Ble.args := ["timeout"] |}.

(** Nothing configured; every device answers as [wave_plus]. *)
Definition fresh_host : Ble.Host :=
  {| Ble.current_ids := ∅;
     Ble.discovered_service_info := [adv1];
     Ble.ble_device_from_address := handle_of;
     Ble.update_device := fun _ => Ble.SdkReturn wave_plus |}.

(** The same, once the address of [adv1] is configured. *)
Definition configured_host : Ble.Host :=
  {| Ble.current_ids := {[ "AA:BB:CC:00:00:01" ]};
     Ble.discovered_service_info := [adv1];
     Ble.ble_device_from_address := handle_of;
     Ble.update_device := fun _ => Ble.SdkReturn wave_plus |}.

(** The SDK fails with an error that is not a transport error. *)
Definition failing_host : Ble.Host :=
  {| Ble.current_ids := ∅;
     Ble.discovered_service_info := [adv1];
     Ble.ble_device_from_address := handle_of;
     Ble.update_device := fun _ => Ble.SdkRaise value_error |}.

Definition bare_error : Ble.exn :=
  {| Ble.exn_cls := Ble.OtherException "RuntimeError"; Ble.args := [] |}.

(** The SDK fails with an error that carries no argument. *)
Definition bare_failing_host : Ble.Host :=
  {| Ble.current_ids := ∅;
     Ble.discovered_service_info := [adv1];
     Ble.ble_device_from_address := handle_of;
     Ble.update_device := fun _ => Ble.SdkRaise bare_error |}.

(** A cloud device whose bundle lists the type [temp] twice. *)
Definition echo : Cloud.AirthingsDevice :=
  {| Cloud.serial_number := "2960000002";
     Cloud.name := "Cellar";
     Cloud.type := "WAVE_MINI";
     Cloud.sensors :=
       [ {| Cloud.sensor_type := "temp"; Cloud.value := Cloud.PyNum 12 |};
         {| Cloud.sensor_type := "temp"; Cloud.value := Cloud.PyNum 13 |} ] |}.

Definition polled_echo : gmap string Cloud.AirthingsDevice :=
  {[ "2960000002" := echo ]}.

(** Nothing configured; the device needs a firmware upgrade. *)
Definition outdated_host : Ble.Host :=
  {| Ble.current_ids := ∅;
     Ble.discovered_service_info := [adv1];
     Ble.ble_device_from_address := handle_of;
     Ble.update_device := fun _ => Ble.SdkReturn wave_enhance |}.

(** The same, once the address of [adv1] is configured. *)
Definition outdated_configured_host : Ble.Host :=
  {| Ble.current_ids := {[ "AA:BB:CC:00:00:01" ]};
     Ble.discovered_service_info := [adv1];
     Ble.ble_device_from_address := handle_of;
     Ble.update_device := fun _ => Ble.SdkReturn wave_enhance |}.

(** The flow object after a scan on [outdated_host]. *)
Definition scanned_outdated : Ble.Flow :=
  (Ble.handle_step outdated_host (Ble.StepUser None) Ble.new_flow).2.

Definition choose_adv1 : gmap string string :=
  {[ Ble.CONF_ADDRESS := "AA:BB:CC:00:00:01" ]}.

(** Only advertisements the scan passes over. *)
Definition barren_host : Ble.Host :=
  {| Ble.current_ids := {[ "AA:BB:CC:00:00:01" ]};
     Ble.discovered_service_info := [adv1; foreign; stranger];
     Ble.ble_device_from_address := handle_of;
     Ble.update_device := fun _ => Ble.SdkReturn wave_plus |}.

(** Three candidates; the fetch of the second one times out. *)
Definition flaky_host : Ble.Host :=
  {| Ble.current_ids := ∅;
     Ble.discovered_service_info := [adv1; adv2; adv3];
     Ble.ble_device_from_address := handle_of;
     Ble.update_device :=
       fun ble_device =>
         if String.eqb (Ble.ble_address ble_device) "AA:BB:CC:00:00:02"
         then Ble.SdkRaise timeout
         else Ble.SdkReturn wave_plus |}.

(** The flow object when the scan on [flaky_host] reaches [adv2]. *)
Definition flaky_reached : Ble.Flow :=
  (Ble.scan flaky_host ∅ [adv1]
     (logged Ble.new_flow [Ble.Log Ble.DEBUG "async_step_user" []])).2.

(** The flow object after a scan on [fresh_host]. *)
Definition scanned_fresh : Ble.Flow :=
  (Ble.handle_step fresh_host (Ble.StepUser None) Ble.new_flow).2.

(** What that scan stores for [adv1]. *)
Definition found_adv1 : Ble.Discovery :=
  discovery_of adv1
    {| Ble.dd_device := wave_plus; Ble.dd_data := Ble.new_reader |}.

(** The flow object after the bluetooth step for [adv1] on [fresh_host]. *)
Definition announced_fresh : Ble.Flow :=
  (Ble.handle_step fresh_host (Ble.StepBluetooth adv1) Ble.new_flow).2.

(** The SDK fails with a transport error. *)
Definition unreachable_host : Ble.Host :=
  {| Ble.current_ids := ∅;
     Ble.discovered_service_info := [adv1];
     Ble.ble_device_from_address := handle_of;
     Ble.update_device := fun _ => Ble.SdkRaise timeout |}.

Definition cancelled : Ble.exn :=
  {| Ble.exn_cls := Ble.NonException "CancelledError"; Ble.args := [] |}.

(** The SDK call is cancelled. *)
Definition cancelled_host : Ble.Host :=
  {| Ble.current_ids := ∅;
     Ble.discovered_service_info := [adv1];
     Ble.ble_device_from_address := handle_of;
     Ble.update_device := fun _ => Ble.SdkRaise cancelled |}.

(** Three candidates; the fetch of the second one is cancelled. *)
Definition interrupted_host : Ble.Host :=
  {| Ble.current_ids := ∅;
     Ble.discovered_service_info := [adv1; adv2; adv3];
     Ble.ble_device_from_address := handle_of;
     Ble.update_device :=
       fun ble_device =>
         if String.eqb (Ble.ble_address ble_device) "AA:BB:CC:00:00:02"
         then Ble.SdkRaise cancelled
         else Ble.SdkReturn wave_plus |}.

(** The flow object when the scan on [interrupted_host] reaches [adv2]. *)
Definition interrupted_reached : Ble.Flow :=
  (Ble.scan interrupted_host ∅ [adv1]
     (logged Ble.new_flow [Ble.Log Ble.DEBUG "async_step_user" []])).2.

(** The same device under another display name, and a mapping that
    files both. *)
Definition wave_renamed : Cloud.AirthingsDevice :=
  {| Cloud.serial_number := "2960000001";
     Cloud.name := "Bedroom";
     Cloud.type := "WAVE_PLUS";
     Cloud.sensors :=
       [ {| Cloud.sensor_type := "humidity"; Cloud.value := Cloud.PyNum 55 |} ] |}.

Definition mirrored : gmap string Cloud.AirthingsDevice :=
  {[ "2960000001" := wave; "mirror" := wave_renamed ]}.

Definition humidity_entity_renamed : Cloud.AirthingsHeaterEnergySensor :=
  Cloud.new_sensor wave_renamed
    (Cloud.describe "humidity" (Some Cloud.PERCENTAGE) (Some Cloud.HUMIDITY)
       None).

(** A cloud host that files its HTTP client in [hass.data] under a key
    of its own (the model shows the value as an empty dict), whose first
    refresh fills the coordinator with [polled], and whose platforms set
    up and unload well. *)
Definition cloud_host : CloudEntry.Host :=
  {| CloudEntry.get_async_client :=
       fun d => (CloudEntry.shared_async_client,
                 <["httpx_async_client" := ∅]> d);
     CloudEntry.async_config_entry_first_refresh :=
       fun c d =>
         (CloudEntry.Return
            {| CloudEntry.coordinator_name := CloudEntry.coordinator_name c;
               CloudEntry.client := CloudEntry.client c;
               CloudEntry.update_interval_minutes :=
                 CloudEntry.update_interval_minutes c;
               CloudEntry.data := Some polled |}, d);
     CloudEntry.async_forward_entry_setups :=
       fun _ d => (CloudEntry.Return (), d);
     CloudEntry.async_unload_platforms := fun _ => CloudEntry.Return true |}.

(** The same host with a first refresh that fails. *)
Definition offline_cloud_host : CloudEntry.Host :=
  {| CloudEntry.get_async_client :=
       fun d => (CloudEntry.shared_async_client,
                 <["httpx_async_client" := ∅]> d);
     CloudEntry.async_config_entry_first_refresh :=
       fun _ d =>
         (CloudEntry.Raise (CloudEntry.HostError "ConfigEntryNotReady"), d);
     CloudEntry.async_forward_entry_setups :=
       fun _ d => (CloudEntry.Return (), d);
     CloudEntry.async_unload_platforms := fun _ => CloudEntry.Return true |}.

Definition account : CloudEntry.ConfigEntry :=
  {| CloudEntry.entry_id := "0123456789abcdef";
     CloudEntry.entry_data := {[ "id" := "client"; "secret" := "hidden" ]} |}.

End Sample.

(* ===================================================================== *)
(** ** Properties of the cloud integration *)
(* ===================================================================== *)

Section CloudProperties.
Import Cloud.

Lemma SENSORS_items_keys :
  Forall (fun p => key p.2 = p.1) SENSORS_items.
Proof. repeat constructor. Qed.

(** Every description is filed under its own key. *)
Lemma SENSORS_key (t : string) (description : SensorEntityDescription) :
  SENSORS !! t = Some description → key description = t.
Proof.
  intros H. apply elem_of_list_to_map_2 in H.
  pose proof SENSORS_items_keys as F.
  rewrite Forall_forall in F. exact (F _ H).
Qed.

Lemma device_entities_pairs (d : AirthingsDevice) (l : list AirthingsSensor) :
  Forall2 entity_of
    (flat_map
       (fun s => match SENSORS !! sensor_type s with
                 | Some description => [new_sensor d description]
                 | None => []
                 end) l)
    (filter known (map (pair d) l)).
Proof.
  induction l as [|s l IH]; simpl.
  - constructor.
  - rewrite filter_cons.
    destruct (decide (known (d, s))) as [[description E]|No]; simpl in *.
    + rewrite E. simpl. constructor; [|exact IH].
      repeat split; simpl; auto using SENSORS_key.
    + destruct (SENSORS !! sensor_type s) eqn:E; [|exact IH].
      destruct No. unfold known. simpl. rewrite E. eauto.
Qed.

Lemma entities_pairs (l : list AirthingsDevice) :
  Forall2 entity_of
    (flat_map device_entities l)
    (filter known (flat_map (fun d => map (pair d) (sensors d)) l)).
Proof.
  induction l as [|d l IH]; simpl.
  - constructor.
  - rewrite filter_app. apply Forall2_app; [|exact IH].
    apply device_entities_pairs.
Qed.

Lemma scan_value_first (k : string) (before after : list AirthingsSensor)
    (sensor : AirthingsSensor) :
  sensor_type sensor = k →
  (∀ s, s ∈ before → sensor_type s ≠ k) →
  scan_value k (before ++ sensor :: after)%list = value sensor
  ∧ scan_available k (before ++ sensor :: after)%list = true.
Proof.
  intros Hk. induction before as [|s before IH]; intros Hb; simpl.
  - apply String.eqb_eq in Hk. rewrite Hk. auto.
  - assert (sensor_type s ≠ k) as Hs by (apply Hb; left).
    apply String.eqb_neq in Hs. rewrite Hs.
    apply IH. intros s' Hs'. apply Hb. by right.
Qed.

Lemma scan_value_absent (k : string) (l : list AirthingsSensor) :
  (∀ s, s ∈ l → sensor_type s ≠ k) →
  scan_value k l = PyNone ∧ scan_available k l = false.
Proof.
  induction l as [|s l IH]; intros Hl; simpl; [auto|].
  assert (sensor_type s ≠ k) as Hs by (apply Hl; left).
  apply String.eqb_neq in Hs. rewrite Hs.
  apply IH. intros s' Hs'. apply Hl. by right.
Qed.

(** A list with an element of type [k] splits at the first such one. *)
Lemma first_of_type (k : string) (l : list AirthingsSensor) :
  (∃ s, s ∈ l ∧ sensor_type s = k) →
  ∃ before sensor after,
    l = (before ++ sensor :: after)%list ∧ sensor_type sensor = k
    ∧ ∀ s, s ∈ before → sensor_type s ≠ k.
Proof.
  induction l as [|x l IH]; intros (s & Hs & Hk).
  - by apply elem_of_nil in Hs.
  - destruct (decide (sensor_type x = k)) as [Hx|Hx].
    + exists [], x, l. repeat split; auto. intros ? H. by apply elem_of_nil in H.
    + apply elem_of_cons in Hs as [->|Hs]; [done|].
      destruct IH as (before & sensor & after & -> & Hsk & Hb); [eauto|].
      exists (x :: before), sensor, after. repeat split; auto.
      intros s' [->|Hs']%elem_of_cons; auto.
Qed.

(** For one device and one sensor type: as many entities as the bundle
    has entries of that type when the table knows the type, and none
    when it does not. *)
Lemma device_entities_count (d : AirthingsDevice) (t : string) :
  length (filter (fun e => key (entity_description e) = t) (device_entities d))
  = if decide (is_Some (SENSORS !! t))
    then length (filter (fun s => sensor_type s = t) (sensors d))
    else 0.
Proof.
  unfold device_entities. induction (sensors d) as [|s l IH]; simpl.
  - by case_decide.
  - rewrite filter_app, length_app, IH, filter_cons. clear IH.
    destruct (SENSORS !! sensor_type s) as [description|] eqn:E.
    + pose proof (SENSORS_key _ _ E) as Hk.
      rewrite filter_cons, filter_nil. simpl. rewrite Hk.
      destruct (decide (sensor_type s = t)) as [<-|Hne].
      * rewrite E. by rewrite decide_True by eauto.
      * by case_decide.
    + rewrite filter_nil. simpl.
      destruct (decide (sensor_type s = t)) as [<-|Hne]; [|done].
      rewrite E. rewrite decide_False; [done|]. by intros [? ?].
Qed.

(** Claim C8.  A poll returns the mapping of the SDK as it is when the
    SDK call succeeds; when the SDK raises [AirthingsError] it raises
    [UpdateFailed] whose message is "Unable to fetch data: " followed by
    the text of the original error; and [UpdateFailed] is raised in this
    case only: any other error of the SDK passes through as it is. *)
Theorem update_method_translates_domain_error (polled : sdk_outcome) :
  (∀ devices, _update_method (SdkReturn devices) = Return devices)
  ∧ (∀ msg,
       _update_method (SdkRaise (AirthingsError msg))
       = Raise (UpdateFailed ("Unable to fetch data: " ++ msg)
                  (AirthingsError msg)))
  ∧ ((∃ text cause, _update_method polled = Raise (UpdateFailed text cause))
     ↔ (∃ msg, polled = SdkRaise (AirthingsError msg))).
Proof.
  split; [reflexivity|]. split; [reflexivity|]. split.
  - intros (text & cause & H).
    destruct polled as [devices|[msg|cls msg]]; simpl in H;
      try discriminate.
    by exists msg.
  - intros (msg & ->). simpl. eauto.
Qed.

(** Claim C2.  For an entity whose device has bundle [bundle] in the
    cached data: if the bundle has an entry of the entity's description
    key, [native_value] is the value of the first such entry and the
    entity is available; if it has none, [native_value] is [None] and
    the entity is not available. *)
Theorem native_value_of_cached_bundle
    (data : gmap string AirthingsDevice) (self : AirthingsHeaterEnergySensor)
    (bundle : AirthingsDevice) :
  data !! _id self = Some bundle →
  ((∃ s, s ∈ sensors bundle ∧ sensor_type s = key (entity_description self))
   → ∃ before sensor after,
       sensors bundle = (before ++ sensor :: after)%list
       ∧ sensor_type sensor = key (entity_description self)
       ∧ (∀ s, s ∈ before → sensor_type s ≠ key (entity_description self))
       ∧ native_value data self = Got (value sensor)
       ∧ available data self = Got true)
  ∧ ((∀ s, s ∈ sensors bundle → sensor_type s ≠ key (entity_description self))
     → native_value data self = Got PyNone
       ∧ available data self = Got false).
Proof.
  intros Hdata. unfold native_value, available. rewrite Hdata. split.
  - intros Hex.
    destruct (first_of_type _ _ Hex) as (before & sensor & after & E & Hk & Hb).
    exists before, sensor, after. rewrite E.
    destruct (scan_value_first _ before after sensor Hk Hb) as [-> ->].
    auto.
  - intros Hno. destruct (scan_value_absent _ _ Hno) as [-> ->]. auto.
Qed.

(** Claim C3, as the code has it.  The entities given to the host
    correspond one to one, in order, to the entries of the devices'
    sensor lists whose sensor type is a key of [SENSORS]: each such
    entry has exactly one entity, built for its device from the
    description filed under its type.  No entity carries a sensor type
    that the table lacks.  Device by device, a type of the table has as
    many entities as the bundle has entries of it, so exactly one when
    the bundle lists it once, and a type outside the table has none. *)
Theorem setup_creates_one_entity_per_known_pair
    (data : gmap string AirthingsDevice) :
  Forall2 entity_of (async_setup_entry data) (filter known (iteration data))
  ∧ length (async_setup_entry data) = length (filter known (iteration data))
  ∧ (∀ t e,
       SENSORS !! t = None →
       e ∈ async_setup_entry data →
       key (entity_description e) ≠ t)
  ∧ async_setup_entry data = concat (device_entities <$> values data)
  ∧ (∀ d t,
       length (filter (fun e => key (entity_description e) = t)
                 (device_entities d))
       = if decide (is_Some (SENSORS !! t))
         then length (filter (fun s => sensor_type s = t) (sensors d))
         else 0)
  ∧ (∀ d t,
       is_Some (SENSORS !! t) →
       length (filter (fun s => sensor_type s = t) (sensors d)) = 1 →
       length (filter (fun e => key (entity_description e) = t)
                 (device_entities d)) = 1).
Proof.
  pose proof (entities_pairs (values data)) as F.
  split; [exact F|]. split; [exact (Forall2_length _ _ _ F)|].
  split; [|split; [|split; [exact device_entities_count|]]].
  - intros t e Ht He Hk.
    apply list_elem_of_lookup in He as [i Hi].
    destruct (Forall2_lookup_l _ _ _ _ _ F Hi) as (p & _ & Hp & Hkey & _).
    rewrite Hk in Hkey. rewrite <- Hkey in Hp. congruence.
  - unfold async_setup_entry. apply flat_map_concat_map.
  - intros d t Hknown Hone.
    rewrite device_entities_count. by rewrite decide_True.
Qed.

End CloudProperties.

(* ===================================================================== *)
(** ** Properties of the Bluetooth config flow *)
(* ===================================================================== *)

Section BleProperties.
Import Ble.

(** Unfolding of the monad's plumbing. *)
Ltac unfold_monad :=
  unfold mbind, M_bind, mret, M_ret, bind, ret, raise, try_except, get, emit,
    getitem, async_set_unique_id, set_unique_id, set_discovered_device,
    set_discovered_devices_item, set_title_placeholders,
    async_abort, async_create_entry, async_show_form in *.

Ltac run_step :=
  unfold handle_step, dispatch, async_step_bluetooth, async_step_user,
    async_step_bluetooth_confirm, _abort_if_unique_id_configured,
    _async_current_ids, fetch_or_abort in *;
  unfold_monad; simpl in *.

(** Claim C4.  When the address of the advertisement is a configured
    unique id, the bluetooth step ends in the abort [already_configured],
    and all the invocation did is write its two debug records: no
    handle was resolved and the SDK was not called. *)
Theorem bluetooth_configured_aborts_before_fetch
    (hass : Host) (discovery_info : BluetoothServiceInfo) (self : Flow) :
  address discovery_info ∈ current_ids hass →
  ∃ self',
    handle_step hass (StepBluetooth discovery_info) self
    = (Return (AbortResult "already_configured"), self')
    ∧ async_step_bluetooth hass discovery_info self
      = (Raise {| exn_cls := AbortFlow; args := ["already_configured"] |},
         self')
    ∧ trace self'
      = (trace self
         ++ [Log DEBUG "async_step_bluetooth" [];
             Log DEBUG "Discovered BT device: %s" [repr_info discovery_info]])%list
    ∧ fetches (trace self') = fetches (trace self).
Proof.
  intros Hin. run_step.
  rewrite (bool_decide_eq_true_2 _ Hin). simpl.
  eexists. split; [reflexivity|]. split; [reflexivity|]. simpl.
  split.
  - by rewrite <- app_assoc.
  - unfold fetches. rewrite <- app_assoc, List.filter_app. simpl. apply app_nil_r.
Qed.

(** *** Strings *)

Lemma prefix_app (n h : string) :
  String.prefix n h = true ↔ ∃ post, h = n ++ post.
Proof.
  revert h. induction n as [|a n IH]; intros h.
  - split; [eauto|]. intros _. by destruct h.
  - destruct h as [|b h]; simpl.
    + split; [discriminate|]. intros [post H]. discriminate.
    + destruct (Ascii.ascii_dec a b) as [->|Hab].
      * rewrite IH. split; intros [post H]; exists post.
        -- by rewrite H.
        -- by injection H.
      * split; [discriminate|]. intros [post H]. injection H. congruence.
Qed.

Lemma str_contains_spec (needle hay : string) :
  str_contains needle hay = true ↔ contains_text needle hay.
Proof.
  unfold contains_text. induction hay as [|c hay IH].
  - cbn [str_contains]. rewrite orb_false_r, prefix_app. split.
    + intros [post H]. exists "", post. exact H.
    + intros (pre & post & H). destruct pre; [eauto|discriminate].
  - cbn [str_contains]. rewrite orb_true_iff, prefix_app, IH. split.
    + intros [[post H]|(pre & post & H)].
      * exists "", post. exact H.
      * exists (String c pre), post. simpl. by rewrite H.
    + intros (pre & post & H). destruct pre as [|c' pre].
      * left. eauto.
      * right. exists pre, post. simpl in H. by injection H.
Qed.

(** *** Framing of the effects *)

Lemma logged_nil (self : Flow) : logged self [] = self.
Proof. destruct self. unfold logged. simpl. by rewrite app_nil_r. Qed.

Lemma logged_logged (self : Flow) (evs evs' : list event) :
  logged (logged self evs) evs' = logged self (evs ++ evs')%list.
Proof. unfold logged. simpl. by rewrite app_assoc. Qed.

Lemma emit_logged (ev : event) (self : Flow) :
  emit ev self = (Return (), logged self [ev]).
Proof. reflexivity. Qed.

(** A fetch does not read the flow object and only adds to its trace. *)
Lemma get_device_data_frame (hass : Host) (info : BluetoothServiceInfo)
    (self : Flow) :
  _get_device_data hass info self
  = (fetch_outcome hass info, logged self (fetch_events hass info)).
Proof.
  unfold fetch_outcome, fetch_events, _get_device_data, try_update_device.
  unfold_monad. unfold logged. simpl.
  destruct (ble_device_from_address hass (address info)) as [ble_device|];
    simpl; [|by rewrite <- ?app_assoc].
  destruct (update_device hass ble_device) as [d|err]; simpl;
    [by rewrite <- ?app_assoc|].
  destruct (is_BleakError err); simpl; [by rewrite <- ?app_assoc|].
  destruct (is_Exception err); simpl; [|by rewrite <- ?app_assoc].
  destruct (args err); simpl; by rewrite <- ?app_assoc.
Qed.

(** *** The scan loop *)

Lemma unknown_services_spec (info : BluetoothServiceInfo) :
  unknown_services info = true
  ↔ (∀ uuid, uuid ∈ service_uuids info → uuid ∉ SERVICE_UUIDS)
    ∧ ¬ contains_text "Tern" (info_name info).
Proof.
  unfold unknown_services.
  rewrite andb_true_iff, !negb_true_iff, <- !not_true_iff_false.
  rewrite str_contains_spec, existsb_exists.
  split; intros [Hu Hn]; split; auto.
  - intros uuid Hin Hk. apply Hu. exists uuid. split.
    + by apply list_elem_of_In.
    + by apply bool_decide_eq_true_2.
  - intros (uuid & Hin & Hk). apply bool_decide_eq_true_1 in Hk.
    apply list_elem_of_In in Hin. exact (Hu uuid Hin Hk).
Qed.

Lemma skipped_spec (configured : gset string)
    (discovered : gmap string Discovery) (info : BluetoothServiceInfo) :
  skipped configured discovered info = true
  ↔ filtered_out configured discovered info.
Proof.
  unfold skipped, filtered_out, MFCT_ID.
  rewrite !orb_true_iff, negb_true_iff, !bool_decide_eq_true,
    bool_decide_eq_false, unknown_services_spec.
  rewrite <- eq_None_not_Some. tauto.
Qed.

Lemma skip_events_quiet (ids : gset string)
    (discovered : gmap string Discovery) (info : BluetoothServiceInfo) :
  Forall (fun ev => is_fetch ev = false) (skip_events ids discovered info).
Proof. unfold skip_events. case_match; by repeat constructor. Qed.

Lemma scan_skip (hass : Host) (ids : gset string)
    (info : BluetoothServiceInfo) (rest : list BluetoothServiceInfo)
    (self : Flow) :
  skipped ids (_discovered_devices self) info = true →
  scan hass ids (info :: rest) self
  = scan hass ids rest
      (logged self (skip_events ids (_discovered_devices self) info)).
Proof.
  unfold skipped, skip_events. intros H. cbn [scan]. unfold_monad.
  destruct (bool_decide (address info ∈ ids)
            || bool_decide (is_Some (_discovered_devices self !! address info)));
    [by rewrite logged_nil|].
  destruct (negb (bool_decide
                    (is_Some (manufacturer_data info !! MFCT_ID))));
    [by rewrite logged_nil|].
  simpl in H. rewrite H. reflexivity.
Qed.

Lemma scan_candidate (hass : Host) (ids : gset string)
    (info : BluetoothServiceInfo) (rest : list BluetoothServiceInfo)
    (self : Flow) :
  skipped ids (_discovered_devices self) info = false →
  scan hass ids (info :: rest) self
  = let reached :=
      logged self
        (Log DEBUG "Continuing with %s" [info_name info]
         :: fetch_events hass info) in
    match fetch_outcome hass info with
    | Return d =>
        scan hass ids rest
          (discover reached (address info)
             {| name := get_name d; discovery_info := info;
                device := dd_device d |})
    | Raise e =>
        if is_Exception e
        then (Return (Some (AbortResult (abort_reason e))), reached)
        else (Raise e, reached)
    end.
Proof.
  unfold skipped. intros H.
  apply orb_false_iff in H as [H H3]. apply orb_false_iff in H as [H1 H2].
  cbn [scan]. unfold fetch_or_abort. unfold_monad.
  rewrite H1, H2, H3. cbn beta iota.
  rewrite get_device_data_frame. cbn beta iota zeta.
  change (_ (_ self) (_ self) (_ self) (_ self)
            (trace self ++ [Log DEBUG "Continuing with %s" [info_name info]])%list)
    with (logged self [Log DEBUG "Continuing with %s" [info_name info]]).
  rewrite logged_logged. simpl.
  destruct (fetch_outcome hass info) as [d|e]; [reflexivity|].
  unfold abort_reason.
  destruct (is_AirthingsDeviceUpdateError e) eqn:E;
    [|by destruct (is_Exception e)].
  assert (is_Exception e = true) as ->; [|reflexivity].
  unfold is_AirthingsDeviceUpdateError in E. unfold is_Exception.
  by destruct (exn_cls e).
Qed.

Lemma fetches_logged_quiet (self : Flow) (evs : list event) :
  Forall (fun ev => is_fetch ev = false) evs →
  fetches (trace (logged self evs)) = fetches (trace self).
Proof.
  intros H. unfold fetches, logged. simpl. rewrite List.filter_app.
  rewrite <- (app_nil_r (List.filter is_fetch (trace self))) at 2. f_equal.
  induction H as [|ev evs Hev _ IH]; simpl; [done|]. by rewrite Hev.
Qed.

(** A scan in which every advertisement is passed over runs to the end
    of the list and leaves the flow object as it was, trace apart. *)
Lemma scan_all_skipped (hass : Host) (ids : gset string)
    (infos : list BluetoothServiceInfo) (self : Flow) :
  Forall (filtered_out ids (_discovered_devices self)) infos →
  ∃ evs,
    Forall (fun ev => is_fetch ev = false) evs
    ∧ scan hass ids infos self = (Return None, logged self evs).
Proof.
  revert self. induction infos as [|info rest IH]; intros self H.
  - exists []. split; [constructor|]. by rewrite logged_nil.
  - apply Forall_cons in H as [Hinfo Hrest].
    apply skipped_spec in Hinfo. rewrite (scan_skip _ _ _ _ _ Hinfo).
    destruct (IH (logged self (skip_events ids (_discovered_devices self) info))
                Hrest) as (evs & Hq & ->).
    eexists. rewrite logged_logged. split; [|reflexivity].
    apply Forall_app. split; [apply skip_events_quiet|exact Hq].
Qed.

(** The loop over a list in two parts: the second part runs from where
    the first one ends, unless the first one left the function. *)
Lemma scan_app (hass : Host) (ids : gset string)
    (l1 l2 : list BluetoothServiceInfo) (self : Flow) :
  scan hass ids (l1 ++ l2)%list self
  = match scan hass ids l1 self with
    | (Return None, reached) => scan hass ids l2 reached
    | r => r
    end.
Proof.
  revert self. induction l1 as [|info l1 IH]; intros self; [reflexivity|].
  rewrite <- app_comm_cons.
  destruct (skipped ids (_discovered_devices self) info) eqn:E.
  - rewrite !(scan_skip _ _ _ _ _ E). apply IH.
  - rewrite !(scan_candidate _ _ _ _ _ E). cbn zeta.
    destruct (fetch_outcome hass info) as [d|e]; [apply IH|].
    by destruct (is_Exception e).
Qed.

(** Claim C6.  A scan of the user step in which every visible
    advertisement is passed over, on a flow that has discovered no
    device so far, ends in the abort [no_devices_found]; no fetch was
    made. *)
Theorem user_scan_without_candidates (hass : Host) (self : Flow) :
  _discovered_devices self = ∅ →
  Forall (filtered_out (current_ids hass) (_discovered_devices self))
    (discovered_service_info hass) →
  ∃ self',
    handle_step hass (StepUser None) self
    = (Return (AbortResult "no_devices_found"), self')
    ∧ _discovered_devices self' = ∅
    ∧ fetches (trace self') = fetches (trace self).
Proof.
  intros Hempty Hall. run_step.
  change (_ (_ self) (_ self) (_ self) (_ self)
            (trace self ++ [Log DEBUG "async_step_user" []])%list)
    with (logged self [Log DEBUG "async_step_user" []]).
  destruct (scan_all_skipped hass (current_ids hass)
              (discovered_service_info hass)
              (logged self [Log DEBUG "async_step_user" []]) Hall)
    as (evs & Hq & ->).
  rewrite logged_logged. simpl. rewrite Hempty. simpl.
  eexists. split; [reflexivity|]. split; [exact Hempty|].
  apply fetches_logged_quiet. by constructor.
Qed.

(** Claim C9.  When the scan of the user step reaches an advertisement
    it does not pass over and the fetch for it fails with an exception,
    the step ends in an abort, [cannot_connect] for
    [AirthingsDeviceUpdateError] and [unknown] for any other exception,
    whatever advertisements follow in the list and whatever devices the
    flow has discovered by then. *)
Theorem user_scan_fetch_failure_aborts_flow
    (hass : Host) (self reached : Flow)
    (before after : list BluetoothServiceInfo) (info : BluetoothServiceInfo)
    (e : exn) :
  discovered_service_info hass = (before ++ info :: after)%list →
  scan hass (current_ids hass) before
    (logged self [Log DEBUG "async_step_user" []])
  = (Return None, reached) →
  ¬ filtered_out (current_ids hass) (_discovered_devices reached) info →
  fetch_outcome hass info = Raise e →
  is_Exception e = true →
  (handle_step hass (StepUser None) self).1
  = Return (AbortResult
              (if is_AirthingsDeviceUpdateError e
               then "cannot_connect" else "unknown")).
Proof.
  intros Hvisible Hbefore Hcand Hfetch Hexc. run_step.
  change (_ (_ self) (_ self) (_ self) (_ self)
            (trace self ++ [Log DEBUG "async_step_user" []])%list)
    with (logged self [Log DEBUG "async_step_user" []]).
  rewrite Hvisible, scan_app, Hbefore.
  rewrite <- skipped_spec in Hcand. apply not_true_is_false in Hcand.
  rewrite (scan_candidate _ _ _ _ _ Hcand). cbn zeta.
  rewrite Hfetch, Hexc. reflexivity.
Qed.

(** *** The fetch *)

(** The branch of claim C1 in general.  When the handle is resolved and
    [update_device] raises an exception that is an [Exception] but not a
    [BleakError], [_get_device_data] writes the error to the log and
    does not raise that error again; but it returns nothing: the call
    ends with an exception of its own, [UnboundLocalError] for the local
    [device] that was never assigned, or [IndexError] when the error
    carries no argument.  That exception is an [Exception] other than
    [AirthingsDeviceUpdateError]. *)
Theorem get_device_data_unexpected_error_raises
    (hass : Host) (info : BluetoothServiceInfo) (self : Flow)
    (ble_device : BLEDevice) (err : exn) :
  ble_device_from_address hass (address info) = Some ble_device →
  update_device hass ble_device = SdkRaise err →
  is_BleakError err = false →
  is_Exception err = true →
  ∃ raised,
    _get_device_data hass info self
    = (Raise raised,
       logged self
         ([ResolveHandle (address info); UpdateDevice ble_device;
           LogException ERROR "Unknown error occurred from %s: %s"
             [address info] err]
          ++ match args err with
             | arg0 :: _ => [Log ERROR "There was an error: %s" [arg0]]
             | [] => []
             end)%list)
    ∧ exn_cls raised
      = match args err with
        | _ :: _ => UnboundLocalError
        | [] => IndexError
        end
    ∧ is_Exception raised = true
    ∧ is_AirthingsDeviceUpdateError raised = false
    ∧ ∀ result self',
        _get_device_data hass info self ≠ (Return result, self').
Proof.
  intros Hhandle Hsdk Hbleak Hexc.
  unfold _get_device_data, try_update_device. unfold_monad. simpl.
  rewrite Hhandle. simpl. rewrite Hsdk. simpl. rewrite Hbleak, Hexc.
  unfold logged. simpl.
  destruct (args err) as [|arg0 rest]; simpl; eexists;
    rewrite <- ?app_assoc; simpl;
    (split; [reflexivity|]); repeat split; intros; discriminate.
Qed.

(** *** The steps *)

Lemma bluetooth_step_result (hass : Host) (info : BluetoothServiceInfo)
    (self : Flow) :
  (handle_step hass (StepBluetooth info) self).1
  = if bool_decide (address info ∈ current_ids hass)
    then Return (AbortResult "already_configured")
    else match fetch_outcome hass info with
         | Return d =>
             Return (FormResult "bluetooth_confirm" None
                       (Some {[ "name" := get_name d ]}) (Some true))
         | Raise e =>
             if is_Exception e then Return (AbortResult (abort_reason e))
             else match exn_cls e, args e with
                  | AbortFlow, reason :: _ => Return (AbortResult reason)
                  | _, _ => Raise e
                  end
         end.
Proof.
  run_step. case_bool_decide; [reflexivity|]. simpl.
  rewrite get_device_data_frame. cbn beta iota.
  destruct (fetch_outcome hass info) as [d|e]; [reflexivity|].
  unfold abort_reason.
  destruct (is_AirthingsDeviceUpdateError e) eqn:E.
  - assert (is_Exception e = true) as ->; [|reflexivity].
    unfold is_AirthingsDeviceUpdateError in E. unfold is_Exception.
    by destruct (exn_cls e).
  - destruct (is_Exception e) eqn:E'; [reflexivity|]. simpl.
    by destruct (exn_cls e), (args e).
Qed.

Lemma bluetooth_step_state (hass : Host) (info : BluetoothServiceInfo)
    (self : Flow) :
  unique_id (handle_step hass (StepBluetooth info) self).2
  = Some (address info)
  ∧ (∀ d, fetch_outcome hass info = Return d →
          address info ∉ current_ids hass →
          title_placeholders (handle_step hass (StepBluetooth info) self).2
          = Some {[ "name" := get_name d ]}).
Proof.
  run_step. case_bool_decide as Hin; simpl.
  - split; [reflexivity|]. intros; contradiction.
  - rewrite get_device_data_frame. cbn beta iota.
    destruct (fetch_outcome hass info) as [d|e].
    + split; [reflexivity|]. intros d' [= <-] _. reflexivity.
    + split; [|intros; discriminate].
      destruct (is_AirthingsDeviceUpdateError e); [reflexivity|].
      destruct (is_Exception e); [reflexivity|]. simpl.
      by destruct (exn_cls e), (args e).
Qed.

Lemma user_select_result (hass : Host) (input : gmap string string)
    (chosen : string) (self : Flow) :
  input !! CONF_ADDRESS = Some chosen →
  (handle_step hass (StepUser (Some input)) self).1
  = (if bool_decide (chosen ∈ current_ids hass)
     then Return (AbortResult "already_configured")
     else match _discovered_devices self !! chosen with
          | None => Raise {| exn_cls := KeyError; args := [chosen] |}
          | Some discovery =>
              if need_fw_upgrade (firmware (device discovery))
              then Return (AbortResult "firmware_upgrade_required")
              else Return (CreateEntryResult (name discovery) ∅)
          end)
  ∧ unique_id (handle_step hass (StepUser (Some input)) self).2
    = Some chosen.
Proof.
  intros Hin. run_step. rewrite Hin. simpl.
  case_bool_decide; [done|]. simpl.
  destruct (_discovered_devices self !! chosen) as [discovery|]; [|done].
  simpl. by destruct (need_fw_upgrade (firmware (device discovery))).
Qed.

(** A [return] from inside the scan loop is an abort. *)
Lemma scan_returns_abort (hass : Host) (ids : gset string)
    (infos : list BluetoothServiceInfo) (self self' : Flow)
    (r : ConfigFlowResult) :
  scan hass ids infos self = (Return (Some r), self') →
  ∃ reason, r = AbortResult reason.
Proof.
  revert self. induction infos as [|info rest IH]; intros self H.
  - discriminate.
  - destruct (skipped ids (_discovered_devices self) info) eqn:E.
    + rewrite (scan_skip _ _ _ _ _ E) in H. eauto.
    + rewrite (scan_candidate _ _ _ _ _ E) in H. cbn zeta in H.
      destruct (fetch_outcome hass info) as [d|e]; [eauto|].
      destruct (is_Exception e); [|discriminate].
      injection H as <- _. eauto.
Qed.

Lemma user_scan_never_creates (hass : Host) (self : Flow)
    (title : string) (data : gmap string string) :
  (handle_step hass (StepUser None) self).1
  ≠ Return (CreateEntryResult title data).
Proof.
  run_step.
  destruct (scan hass (current_ids hass) (discovered_service_info hass) _)
    as [[[r|]|e] reached] eqn:E; simpl.
  - destruct (scan_returns_abort _ _ _ _ _ _ E) as [reason ->]. discriminate.
  - by case_bool_decide.
  - by destruct (exn_cls e), (args e).
Qed.

Lemma user_select_without_address (hass : Host) (input : gmap string string)
    (self : Flow) :
  input !! CONF_ADDRESS = None →
  (handle_step hass (StepUser (Some input)) self).1
  = Raise {| exn_cls := KeyError; args := [CONF_ADDRESS] |}.
Proof. intros H. run_step. by rewrite H. Qed.

Lemma bluetooth_confirm_creates (hass : Host) (input : gmap string string)
    (self : Flow) (title : string) :
  title_placeholders self = Some {[ "name" := title ]} →
  (handle_step hass (StepBluetoothConfirm (Some input)) self).1
  = Return (CreateEntryResult title ∅).
Proof.
  intros H. run_step. rewrite H. simpl.
  by rewrite lookup_singleton_eq.
Qed.

(** Claim C5, as the code has it.  A submission of the user step that
    selects a discovered device whose firmware record asks for an
    upgrade never creates an entry.  It ends in the abort
    [firmware_upgrade_required] when the selected address is not a
    configured unique id at that moment, and in the abort
    [already_configured] when it is: that test comes first. *)
Theorem user_select_firmware_upgrade
    (hass : Host) (input : gmap string string) (chosen : string)
    (self : Flow) (discovery : Discovery) :
  input !! CONF_ADDRESS = Some chosen →
  _discovered_devices self !! chosen = Some discovery →
  need_fw_upgrade (firmware (device discovery)) = true →
  (chosen ∉ current_ids hass →
   (handle_step hass (StepUser (Some input)) self).1
   = Return (AbortResult "firmware_upgrade_required"))
  ∧ (chosen ∈ current_ids hass →
     (handle_step hass (StepUser (Some input)) self).1
     = Return (AbortResult "already_configured"))
  ∧ (∀ title data,
       (handle_step hass (StepUser (Some input)) self).1
       ≠ Return (CreateEntryResult title data)).
Proof.
  intros Hin Hd Hfw.
  destruct (user_select_result hass input chosen self Hin) as [-> _].
  rewrite Hd, Hfw. repeat split; intros; case_bool_decide; done.
Qed.

(** Claim C7.  After a successful fetch in the bluetooth step the
    confirmation form is shown with the placeholder [name] equal to the
    name of the device, and confirming creates the entry under that
    title.  The name is the friendly name followed by the identifier in
    brackets when the identifier is a non-empty string, and the friendly
    name alone when there is no identifier or it is empty. *)
Theorem confirmation_shows_device_name
    (hass : Host) (info : BluetoothServiceInfo) (self : Flow)
    (ble_device : BLEDevice) (fetched : AirthingsDevice) :
  address info ∉ current_ids hass →
  ble_device_from_address hass (address info) = Some ble_device →
  update_device hass ble_device = SdkReturn fetched →
  ∃ shown,
    (handle_step hass (StepBluetooth info) self).1
    = Return (FormResult "bluetooth_confirm" None
                (Some {[ "name" := shown ]}) (Some true))
    ∧ (∀ hass' input,
         (handle_step hass' (StepBluetoothConfirm (Some input))
            (handle_step hass (StepBluetooth info) self).2).1
         = Return (CreateEntryResult shown ∅))
    ∧ shown = get_name {| dd_device := fetched; dd_data := new_reader |}
    ∧ (∀ i, identifier fetched = Some i → i ≠ "" →
            shown = friendly_name fetched ++ " (" ++ i ++ ")")
    ∧ (identifier fetched = None ∨ identifier fetched = Some "" →
       shown = friendly_name fetched).
Proof.
  intros Hnew Hhandle Hsdk.
  assert (fetch_outcome hass info
          = Return {| dd_device := fetched; dd_data := new_reader |}) as Hf.
  { unfold fetch_outcome, _get_device_data, try_update_device.
    unfold_monad. simpl. rewrite Hhandle. simpl. by rewrite Hsdk. }
  exists (get_name {| dd_device := fetched; dd_data := new_reader |}).
  split; [|split; [|split; [reflexivity|split]]].
  - rewrite bluetooth_step_result, Hf. by case_bool_decide.
  - intros hass' input. apply bluetooth_confirm_creates.
    by apply bluetooth_step_state.
  - intros i Hi Hne. unfold get_name. simpl. rewrite Hi. simpl.
    apply String.eqb_neq in Hne. by rewrite Hne.
  - intros [Hi|Hi]; unfold get_name; simpl; by rewrite Hi.
Qed.

(** Claim C10, as the code has it.  Each path sets the unique id of the
    flow to the address and ends in the abort [already_configured] when
    that address is a configured unique id at that step: the bluetooth
    step for the advertised address, a submission of the user step for
    the selected address, whatever the scan found before.  The user
    step creates an entry only for an address that is not configured at
    the step that creates it.  The bluetooth step creates no entry
    itself and shows the confirmation form only for an address that is
    not configured at that step; the entry is created by the later
    confirmation step, which looks at no configured id. *)
Theorem unique_id_guards_entry_creation (hass : Host) (self : Flow) :
  (∀ info,
     unique_id (handle_step hass (StepBluetooth info) self).2
     = Some (address info)
     ∧ (address info ∈ current_ids hass →
        (handle_step hass (StepBluetooth info) self).1
        = Return (AbortResult "already_configured"))
     ∧ (∀ title data,
          (handle_step hass (StepBluetooth info) self).1
          ≠ Return (CreateEntryResult title data))
     ∧ (∀ step_id schema placeholders last,
          (handle_step hass (StepBluetooth info) self).1
          = Return (FormResult step_id schema placeholders last) →
          address info ∉ current_ids hass))
  ∧ (∀ input chosen,
       input !! CONF_ADDRESS = Some chosen →
       unique_id (handle_step hass (StepUser (Some input)) self).2
       = Some chosen
       ∧ (chosen ∈ current_ids hass →
          (handle_step hass (StepUser (Some input)) self).1
          = Return (AbortResult "already_configured")))
  ∧ (∀ user_input title data,
       (handle_step hass (StepUser user_input) self).1
       = Return (CreateEntryResult title data) →
       ∃ input chosen,
         user_input = Some input
         ∧ input !! CONF_ADDRESS = Some chosen
         ∧ (chosen ∉ current_ids hass)
         ∧ unique_id (handle_step hass (StepUser user_input) self).2
           = Some chosen)
  ∧ (∀ input title,
       title_placeholders self = Some {[ "name" := title ]} →
       (handle_step hass (StepBluetoothConfirm (Some input)) self).1
       = Return (CreateEntryResult title ∅)).
Proof.
  split; [|split; [|split]].
  - intros info. split; [apply bluetooth_step_state|].
    rewrite bluetooth_step_result.
    split; [|split].
    + intros Hin. by rewrite bool_decide_eq_true_2.
    + intros title data. case_bool_decide; [done|].
      destruct (fetch_outcome hass info) as [d|e]; [done|].
      destruct (is_Exception e); [done|].
      by destruct (exn_cls e), (args e).
    + intros step_id schema placeholders last.
      by case_bool_decide.
  - intros input chosen Hin.
    destruct (user_select_result hass input chosen self Hin) as [-> ->].
    split; [reflexivity|]. intros Hc. by rewrite bool_decide_eq_true_2.
  - intros [input|] title data H.
    + destruct (input !! CONF_ADDRESS) as [chosen|] eqn:Hin.
      * exists input, chosen.
        destruct (user_select_result hass input chosen self Hin) as [E ->].
        rewrite E in H. repeat split; auto.
        intros Hc. by rewrite bool_decide_eq_true_2 in H.
      * by rewrite user_select_without_address in H.
    + by apply user_scan_never_creates in H.
  - intros input title Ht. by apply bluetooth_confirm_creates.
Qed.

End BleProperties.

(* ===================================================================== *)
(** ** The properties at the sample data *)
(* ===================================================================== *)

Section Instances.
Import Ble Sample.

Lemma native_value_of_cached_bundle_at_humidity :
  ∃ before sensor after,
    Cloud.sensors wave = (before ++ sensor :: after)%list
    ∧ Cloud.sensor_type sensor
      = Cloud.key (Cloud.entity_description humidity_entity)
    ∧ (∀ s, s ∈ before →
            Cloud.sensor_type s
            ≠ Cloud.key (Cloud.entity_description humidity_entity))
    ∧ Cloud.native_value polled humidity_entity = Cloud.Got (Cloud.value sensor)
    ∧ Cloud.available polled humidity_entity = Cloud.Got true.
Proof.
  apply (native_value_of_cached_bundle polled humidity_entity wave).
  - vm_compute. reflexivity.
  - exists {| Cloud.sensor_type := "humidity"; Cloud.value := Cloud.PyNum 40 |}.
    split; [|reflexivity]. simpl. do 2 right. left.
Defined.

Lemma bluetooth_configured_aborts_at_adv1 :
  ∃ self',
    handle_step configured_host (StepBluetooth adv1) new_flow
    = (Return (AbortResult "already_configured"), self')
    ∧ async_step_bluetooth configured_host adv1 new_flow
      = (Raise {| exn_cls := AbortFlow; args := ["already_configured"] |},
         self')
    ∧ trace self'
      = (trace new_flow
         ++ [Log DEBUG "async_step_bluetooth" [];
             Log DEBUG "Discovered BT device: %s" [repr_info adv1]])%list
    ∧ fetches (trace self') = fetches (trace new_flow).
Proof.
  apply (bluetooth_configured_aborts_before_fetch configured_host adv1 new_flow).
  simpl. apply elem_of_singleton. reflexivity.
Defined.

Lemma user_scan_without_candidates_at_barren :
  ∃ self',
    handle_step barren_host (StepUser None) new_flow
    = (Return (AbortResult "no_devices_found"), self')
    ∧ _discovered_devices self' = ∅
    ∧ fetches (trace self') = fetches (trace new_flow).
Proof.
  apply (user_scan_without_candidates barren_host new_flow).
  - reflexivity.
  - repeat (apply List.Forall_cons;
            [apply skipped_spec; vm_compute; reflexivity|]).
    apply List.Forall_nil.
Defined.

Lemma user_scan_fetch_failure_at_flaky :
  (handle_step flaky_host (StepUser None) new_flow).1
  = Return (AbortResult "cannot_connect").
Proof.
  apply (user_scan_fetch_failure_aborts_flow flaky_host new_flow
           flaky_reached [adv1] [adv3] adv2
           {| exn_cls := AirthingsDeviceUpdateError;
              args := ["Failed getting device data"] |}).
  - reflexivity.
  - vm_compute. reflexivity.
  - intros H. apply skipped_spec in H. vm_compute in H. discriminate H.
  - vm_compute. reflexivity.
  - reflexivity.
Defined.

Lemma get_device_data_unexpected_error_at_failing :
  ∃ raised,
    _get_device_data failing_host adv1 new_flow
    = (Raise raised,
       logged new_flow
         ([ResolveHandle (address adv1);
           UpdateDevice {| ble_address := "AA:BB:CC:00:00:01" |};
           LogException ERROR "Unknown error occurred from %s: %s"
             [address adv1] value_error]
          ++ match args value_error with
             | arg0 :: _ => [Log ERROR "There was an error: %s" [arg0]]
             | [] => []
             end)%list)
    ∧ exn_cls raised
      = match args value_error with
        | _ :: _ => UnboundLocalError
        | [] => IndexError
        end
    ∧ is_Exception raised = true
    ∧ is_AirthingsDeviceUpdateError raised = false
    ∧ ∀ result self',
        _get_device_data failing_host adv1 new_flow ≠ (Return result, self').
Proof.
  apply (get_device_data_unexpected_error_raises failing_host adv1 new_flow
           {| ble_address := "AA:BB:CC:00:00:01" |} value_error);
    reflexivity.
Defined.

(** Claim C1 at a failing input.  On [failing_host] the handle is
    resolved and the SDK raises a [ValueError]: the fetch does not
    return the [DeviceAndData] the claim speaks of, it ends with
    [UnboundLocalError] at the [return] of line 98, where the local
    [device] was never assigned.  With an error that carries no argument
    ([bare_failing_host]) it ends with [IndexError] at line 97 already.
    The bluetooth step turns either one into the abort [unknown]. *)
Lemma unexpected_error_yields_no_result :
  ble_device_from_address failing_host (address adv1)
  = Some {| ble_address := "AA:BB:CC:00:00:01" |}
  ∧ update_device failing_host {| ble_address := "AA:BB:CC:00:00:01" |}
    = SdkRaise value_error
  ∧ is_BleakError value_error = false
  ∧ is_Exception value_error = true
  ∧ (_get_device_data failing_host adv1 new_flow).1
    = Raise {| exn_cls := UnboundLocalError;
               args := ["cannot access local variable 'device' where it is not associated with a value"] |}
  ∧ (¬ ∃ result,
         (_get_device_data failing_host adv1 new_flow).1 = Return result)
  ∧ (_get_device_data bare_failing_host adv1 new_flow).1
    = Raise {| exn_cls := IndexError; args := ["tuple index out of range"] |}
  ∧ (handle_step failing_host (StepBluetooth adv1) new_flow).1
    = Return (AbortResult "unknown")
  ∧ (handle_step bare_failing_host (StepBluetooth adv1) new_flow).1
    = Return (AbortResult "unknown").
Proof.
  repeat split; try reflexivity. intros [result H]. vm_compute in H.
  discriminate H.
Qed.

Lemma user_select_firmware_upgrade_at_outdated :
  ("AA:BB:CC:00:00:01" ∉ current_ids outdated_host →
   (handle_step outdated_host (StepUser (Some choose_adv1))
      scanned_outdated).1
   = Return (AbortResult "firmware_upgrade_required"))
  ∧ ("AA:BB:CC:00:00:01" ∈ current_ids outdated_host →
     (handle_step outdated_host (StepUser (Some choose_adv1))
        scanned_outdated).1
     = Return (AbortResult "already_configured"))
  ∧ (∀ title data,
       (handle_step outdated_host (StepUser (Some choose_adv1))
          scanned_outdated).1
       ≠ Return (CreateEntryResult title data)).
Proof.
  apply (user_select_firmware_upgrade outdated_host choose_adv1
           "AA:BB:CC:00:00:01" scanned_outdated
           {| name := "Airthings Wave Enhance"; discovery_info := adv1;
              device := wave_enhance |}).
  - vm_compute. reflexivity.
  - vm_compute. reflexivity.
  - reflexivity.
Defined.

(** A scan finds a device that needs a firmware upgrade; by the time the
    user selects it, its address has become a configured unique id.
    The premises of claim C5 hold, and the abort is [already_configured],
    not [firmware_upgrade_required]. *)
Lemma firmware_upgrade_on_configured_address :
  choose_adv1 !! CONF_ADDRESS = Some "AA:BB:CC:00:00:01"
  ∧ (∃ discovery,
       _discovered_devices scanned_outdated !! "AA:BB:CC:00:00:01"
       = Some discovery
       ∧ need_fw_upgrade (firmware (device discovery)) = true)
  ∧ (handle_step outdated_configured_host (StepUser (Some choose_adv1))
       scanned_outdated).1
    = Return (AbortResult "already_configured")
  ∧ (handle_step outdated_configured_host (StepUser (Some choose_adv1))
       scanned_outdated).1
    ≠ Return (AbortResult "firmware_upgrade_required").
Proof.
  split; [vm_compute; reflexivity|]. split.
  - exists {| name := "Airthings Wave Enhance"; discovery_info := adv1;
              device := wave_enhance |}.
    split; [vm_compute; reflexivity|reflexivity].
  - split; [vm_compute; reflexivity|].
    intros H. vm_compute in H. discriminate H.
Qed.

Lemma confirmation_shows_device_name_at_adv1 :
  ∃ shown,
    (handle_step fresh_host (StepBluetooth adv1) new_flow).1
    = Return (FormResult "bluetooth_confirm" None
                (Some {[ "name" := shown ]}) (Some true))
    ∧ (∀ hass' input,
         (handle_step hass' (StepBluetoothConfirm (Some input))
            (handle_step fresh_host (StepBluetooth adv1) new_flow).2).1
         = Return (CreateEntryResult shown ∅))
    ∧ shown = get_name {| dd_device := wave_plus; dd_data := new_reader |}
    ∧ (∀ i, identifier wave_plus = Some i → i ≠ "" →
            shown = friendly_name wave_plus ++ " (" ++ i ++ ")")
    ∧ (identifier wave_plus = None ∨ identifier wave_plus = Some "" →
       shown = friendly_name wave_plus).
Proof.
  apply (confirmation_shows_device_name fresh_host adv1 new_flow
           {| ble_address := "AA:BB:CC:00:00:01" |} wave_plus).
  - simpl. apply not_elem_of_empty.
  - reflexivity.
  - reflexivity.
Defined.

(** The bluetooth step runs while the address is not configured and
    shows the confirmation form; the address becomes a configured
    unique id; the user confirms: the flow creates an entry for an
    address that is configured. *)
Lemma confirmation_creates_entry_for_configured_address :
  session [ (fresh_host, StepBluetooth adv1);
            (configured_host, StepBluetoothConfirm (Some ∅)) ] new_flow
  = [ Return (FormResult "bluetooth_confirm" None
                (Some {[ "name" := "Airthings Wave Plus (123456)" ]})
                (Some true));
      Return (CreateEntryResult "Airthings Wave Plus (123456)" ∅) ]
  ∧ address adv1 ∈ current_ids configured_host.
Proof.
  split; [vm_compute; reflexivity|].
  simpl. apply elem_of_singleton. reflexivity.
Qed.

(** A bundle that lists the type [temp] twice: the (device, sensor type)
    pair of claim C3 gets two entities, not exactly one. *)
Lemma type_listed_twice_gets_two_entities :
  Cloud.sensor_type <$> Cloud.sensors echo = ["temp"; "temp"]
  ∧ is_Some (Cloud.SENSORS !! "temp")
  ∧ Cloud.values polled_echo = [echo]
  ∧ Cloud._attr_unique_id <$> Cloud.async_setup_entry polled_echo
    = ["2960000002_temp"; "2960000002_temp"]
  ∧ length
      (filter
         (fun e => Cloud._id e = Cloud.serial_number echo
                   ∧ Cloud.key (Cloud.entity_description e) = "temp")
         (Cloud.async_setup_entry polled_echo))
    = 2.
Proof.
  split; [reflexivity|]. split; [vm_compute; eauto|].
  split; [vm_compute; reflexivity|]. split; vm_compute; reflexivity.
Qed.

Example setup_at_polled :
  Cloud._attr_unique_id <$> Cloud.async_setup_entry polled
  = ["2960000001_temp"; "2960000001_humidity"].
Proof. vm_compute. reflexivity. Qed.

Example get_name_with_identifier :
  get_name {| dd_device := wave_plus; dd_data := new_reader |}
  = "Airthings Wave Plus (123456)".
Proof. reflexivity. Qed.

Example get_name_without_identifier :
  get_name {| dd_device := wave_enhance; dd_data := new_reader |}
  = "Airthings Wave Enhance".
Proof. reflexivity. Qed.

Example tern_is_case_sensitive :
  str_contains "Tern" "Intern" = false ∧ str_contains "Tern" "Wave Tern" = true.
Proof. split; reflexivity. Qed.

Example scan_on_fresh_host :
  (handle_step fresh_host (StepUser None) new_flow).1
  = Return (FormResult "user"
              (Some {[ "AA:BB:CC:00:00:01" := "Airthings Wave Plus (123456)" ]})
              None None).
Proof. vm_compute. reflexivity. Qed.

Example select_on_fresh_host :
  session [ (fresh_host, StepUser None);
            (fresh_host, StepUser (Some choose_adv1)) ] new_flow
  = [ Return (FormResult "user"
                (Some {[ "AA:BB:CC:00:00:01"
                         := "Airthings Wave Plus (123456)" ]})
                None None);
      Return (CreateEntryResult "Airthings Wave Plus (123456)" ∅) ].
Proof. vm_compute. reflexivity. Qed.

End Instances.

(* ===================================================================== *)
(** ** Further properties of the cloud integration *)
(* ===================================================================== *)

Section CloudFurther.
Import Cloud.

Lemma SENSORS_items_plain_keys :
  Forall (fun p => no_underscore (key p.2) = true) SENSORS_items.
Proof. repeat constructor. Qed.

Lemma SENSORS_plain_key (t : string) (description : SensorEntityDescription) :
  SENSORS !! t = Some description → no_underscore (key description) = true.
Proof.
  intros H. apply elem_of_list_to_map_2 in H.
  pose proof SENSORS_items_plain_keys as F.
  rewrite Forall_forall in F. exact (F _ H).
Qed.

Lemma append_cons (c : Ascii.ascii) (a b : string) :
  String c a ++ b = String c (a ++ b).
Proof. reflexivity. Qed.

Lemma append_empty_l (b : string) : "" ++ b = b.
Proof. reflexivity. Qed.

Lemma underscore_in_app (a b : string) :
  no_underscore (a ++ String (Ascii.ascii_of_nat 95) b) = false.
Proof.
  induction a as [|c a IH]; [reflexivity|].
  rewrite append_cons. cbn [no_underscore]. rewrite IH. apply andb_false_r.
Qed.

(** A serial number and an underscore-free key can be read back from
    their concatenation around an underscore. *)
Lemma unique_id_split (s1 s2 k1 k2 : string) :
  no_underscore k1 = true → no_underscore k2 = true →
  s1 ++ "_" ++ k1 = s2 ++ "_" ++ k2 → s1 = s2 ∧ k1 = k2.
Proof.
  change ("_" ++ k1) with (String (Ascii.ascii_of_nat 95) k1).
  change ("_" ++ k2) with (String (Ascii.ascii_of_nat 95) k2).
  intros H1 H2. revert s2. induction s1 as [|c s1 IH]; intros [|c' s2] E;
    rewrite ?append_cons, ?append_empty_l in E.
  - by injection E.
  - injection E as _ E. rewrite E, underscore_in_app in H1. discriminate.
  - injection E as _ E. rewrite <- E, underscore_in_app in H2. discriminate.
  - injection E as -> E. destruct (IH _ E) as [-> ->]. done.
Qed.

(** Where an entity of the setup comes from. *)
Lemma setup_entity_origin (data : gmap string AirthingsDevice)
    (e : AirthingsHeaterEnergySensor) :
  e ∈ async_setup_entry data →
  ∃ d s description,
    d ∈ values data ∧ s ∈ sensors d
    ∧ SENSORS !! sensor_type s = Some description
    ∧ e = new_sensor d description.
Proof.
  unfold async_setup_entry, device_entities.
  intros He. apply list_elem_of_In, in_flat_map in He as (d & Hd & He).
  apply in_flat_map in He as (s & Hs & He).
  exists d, s. apply list_elem_of_In in Hd, Hs.
  destruct (SENSORS !! sensor_type s) as [description|]; [|by destruct He].
  exists description. destruct He as [<-|[]]. done.
Qed.

(** The unique ids tell the entities of one setup apart: two entities
    with the same unique id belong to the same serial number and carry
    the same description. *)
Theorem setup_unique_ids_determine_entity
    (data : gmap string AirthingsDevice)
    (e1 e2 : AirthingsHeaterEnergySensor) :
  e1 ∈ async_setup_entry data →
  e2 ∈ async_setup_entry data →
  _attr_unique_id e1 = _attr_unique_id e2 →
  _id e1 = _id e2 ∧ entity_description e1 = entity_description e2.
Proof.
  intros (d1 & s1 & k1 & _ & _ & H1 & ->)%setup_entity_origin
         (d2 & s2 & k2 & _ & _ & H2 & ->)%setup_entity_origin E.
  simpl in *.
  apply unique_id_split in E as [Es Ek];
    [|by eapply SENSORS_plain_key..].
  split; [done|].
  pose proof (SENSORS_key _ _ H1) as E1. pose proof (SENSORS_key _ _ H2) as E2.
  rewrite <- E1 in H1. rewrite <- E2, <- Ek in H2. congruence.
Qed.

(** No entity is set up exactly when no device lists a sensor type of
    the table; in particular for an empty mapping. *)
Theorem setup_creates_nothing_iff (data : gmap string AirthingsDevice) :
  async_setup_entry data = []
  ↔ ∀ d s, d ∈ values data → s ∈ sensors d →
           SENSORS !! sensor_type s = None.
Proof.
  split.
  - intros E d s Hd Hs.
    destruct (SENSORS !! sensor_type s) as [description|] eqn:Hk; [|done].
    assert (new_sensor d description ∈ async_setup_entry data) as Hin.
    { unfold async_setup_entry, device_entities.
      apply list_elem_of_In, in_flat_map. exists d.
      split; [by apply list_elem_of_In|].
      apply in_flat_map. exists s. split; [by apply list_elem_of_In|].
      rewrite Hk. by left. }
    rewrite E in Hin. by apply elem_of_nil in Hin.
  - intros H. destruct (async_setup_entry data) as [|e l] eqn:E; [done|].
    assert (e ∈ async_setup_entry data) as Hin by (rewrite E; left).
    apply setup_entity_origin in Hin as (d & s & k & Hd & Hs & Hk & _).
    rewrite (H d s Hd Hs) in Hk. discriminate.
Qed.

Lemma scan_available_true (k : string) (l : list AirthingsSensor) :
  scan_available k l = true ↔ ∃ s, s ∈ l ∧ sensor_type s = k.
Proof.
  split.
  - induction l as [|x l IH]; simpl; [discriminate|].
    destruct (String.eqb_spec (sensor_type x) k) as [Hx|Hx].
    + intros _. exists x. split; [left|done].
    + intros (s & Hs & Hk)%IH. exists s. split; [by right|done].
  - intros Hex.
    destruct (first_of_type _ _ Hex) as (before & sensor & after & -> & Hk & Hb).
    by destruct (scan_value_first _ before after sensor Hk Hb).
Qed.

(** The two getters of an entity agree.  Both fail with [KeyError] of
    the serial number exactly when the device is not in the cached
    mapping; the entity is available exactly when the cached bundle has
    an entry of its type; and a value other than [None] is only ever
    reported by an available entity. *)
Theorem getters_agree (data : gmap string AirthingsDevice)
    (self : AirthingsHeaterEnergySensor) :
  (data !! _id self = None ↔ native_value data self = KeyError (_id self))
  ∧ (data !! _id self = None ↔ available data self = KeyError (_id self))
  ∧ (available data self = Got true
     ↔ ∃ bundle s,
         data !! _id self = Some bundle ∧ s ∈ sensors bundle
         ∧ sensor_type s = key (entity_description self))
  ∧ (∀ v, native_value data self = Got v → v ≠ PyNone →
          available data self = Got true).
Proof.
  unfold native_value, available.
  destruct (data !! _id self) as [bundle|] eqn:E.
  - split; [by split|]. split; [by split|]. split.
    + split.
      * intros [= H]. apply scan_available_true in H as (s & Hs & Hk).
        by exists bundle, s.
      * intros (b & s & [= <-] & Hs & Hk). f_equal.
        apply scan_available_true. eauto.
    + intros v [= <-] Hv. f_equal.
      destruct (scan_available _ (sensors bundle)) eqn:Ha; [done|].
      destruct Hv. apply scan_value_absent.
      intros s Hs Hk.
      assert (scan_available (key (entity_description self)) (sensors bundle)
              = true) as Ht by (apply scan_available_true; eauto).
      congruence.
  - split; [by split|]. split; [by split|]. split; [|done].
    split; [done|]. by intros (b & s & [=] & _).
Qed.

(** An entity of the setup reads the data it was set up from: when the
    mapping files the device under its serial number, every entity made
    for the device is available, and its value is that of an entry of
    its type in the bundle. *)
Theorem setup_entities_available
    (data : gmap string AirthingsDevice) (d : AirthingsDevice)
    (e : AirthingsHeaterEnergySensor) :
  data !! serial_number d = Some d →
  e ∈ device_entities d →
  available data e = Got true
  ∧ ∃ s, s ∈ sensors d ∧ sensor_type s = key (entity_description e)
         ∧ native_value data e = Got (value s).
Proof.
  intros Hd He. unfold device_entities in He.
  apply list_elem_of_In, in_flat_map in He as (s & Hs & He).
  apply list_elem_of_In in Hs.
  destruct (SENSORS !! sensor_type s) as [description|] eqn:Hk;
    [|by destruct He].
  destruct He as [<-|[]]. pose proof (SENSORS_key _ _ Hk) as Hkey.
  unfold available, native_value. simpl. rewrite Hd.
  assert (∃ s', s' ∈ sensors d ∧ sensor_type s' = key description) as Hex
    by eauto.
  destruct (first_of_type _ _ Hex) as (before & s' & after & E & Hs' & Hb).
  rewrite E.
  destruct (scan_value_first _ before after s' Hs' Hb) as [-> ->].
  split; [done|]. exists s'. split; [|done].
  apply elem_of_app. right. left.
Qed.

End CloudFurther.

(* ===================================================================== *)
(** ** Properties of the entry life cycle *)
(* ===================================================================== *)

Section CloudEntryProperties.
Import CloudEntry.

Variables CONF_ID CONF_SECRET : string.

Lemma registry_of_setdefault (data : hass_data) :
  registry_of (setdefault Cloud.DOMAIN data) = registry_of data
  ∧ is_Some (setdefault Cloud.DOMAIN data !! Cloud.DOMAIN)
  ∧ ∀ domain, domain ≠ Cloud.DOMAIN →
              setdefault Cloud.DOMAIN data !! domain = data !! domain.
Proof.
  unfold registry_of, setdefault.
  destruct (data !! Cloud.DOMAIN) as [registry|] eqn:E.
  - rewrite E. eauto.
  - rewrite lookup_insert_eq. repeat split; eauto.
    intros domain Hne. by rewrite lookup_insert_ne.
Qed.

Lemma keeps_domain_registry (host : Host) (d : hass_data) :
  keeps_domain host →
  registry_of (get_async_client host d).2 = registry_of d
  ∧ (∀ c, registry_of (async_config_entry_first_refresh host c d).2
          = registry_of d)
  ∧ (∀ e, registry_of (async_forward_entry_setups host e d).2
          = registry_of d).
Proof.
  intros (H1 & H2 & H3). unfold registry_of.
  repeat split; intros; by rewrite ?H1, ?H2, ?H3.
Qed.

(** How a setup runs when the host calls leave the dict of the domain
    alone: the keys are read, the client is fetched, the coordinator is
    refreshed, and unless one of these fails the coordinator is filed
    and the entry forwarded. *)
Lemma setup_unfold (host : Host) (data : hass_data) (entry : ConfigEntry) :
  keeps_domain host →
  let r := async_setup_entry CONF_ID CONF_SECRET host data entry in
  is_Some (r.2 !! Cloud.DOMAIN)
  ∧ match entry_data entry !! CONF_ID, entry_data entry !! CONF_SECRET with
    | Some id, Some secret =>
        let fetched := get_async_client host (setdefault Cloud.DOMAIN data) in
        let refreshed :=
          async_config_entry_first_refresh host
            (built_coordinator id secret fetched.1) fetched.2 in
        match refreshed.1 with
        | Return coordinator =>
            registry_of r.2
            = <[entry_id entry := coordinator]> (registry_of data)
            ∧ (r.1 = Return true
               ∨ ∃ e d, r.1 = Raise e
                        ∧ (async_forward_entry_setups host entry d).1
                          = Raise e)
        | Raise e => r.1 = Raise e ∧ registry_of r.2 = registry_of data
        end
    | None, _ => r.1 = Raise (KeyError CONF_ID)
                 ∧ registry_of r.2 = registry_of data
    | Some _, None => r.1 = Raise (KeyError CONF_SECRET)
                      ∧ registry_of r.2 = registry_of data
    end.
Proof.
  intros K. pose proof K as (K1 & K2 & K3). cbn zeta.
  unfold async_setup_entry.
  destruct (registry_of_setdefault data) as (Hreg & Hdom & _).
  destruct (entry_data entry !! CONF_ID) as [id|]; [|by auto].
  destruct (entry_data entry !! CONF_SECRET) as [secret|]; [|by auto].
  destruct (get_async_client host (setdefault Cloud.DOMAIN data))
    as [session d1] eqn:G. simpl.
  fold (built_coordinator id secret session).
  assert (d1 !! Cloud.DOMAIN = setdefault Cloud.DOMAIN data !! Cloud.DOMAIN)
    as Hd1 by (rewrite <- (K1 (setdefault Cloud.DOMAIN data)); by rewrite G).
  destruct (async_config_entry_first_refresh host _ d1)
    as [[coordinator|e] d2] eqn:R; simpl.
  - assert (d2 !! Cloud.DOMAIN = d1 !! Cloud.DOMAIN) as Hd2
      by (rewrite <- (K2 (built_coordinator id secret session) d1);
          by rewrite R).
    destruct Hdom as [registry Hdom].
    rewrite Hd2, Hd1, Hdom.
    assert (registry = registry_of data) as ->.
    { rewrite <- Hreg. unfold registry_of. by rewrite Hdom. }
    destruct (async_forward_entry_setups host entry _) as [[[]|e] d3] eqn:F;
      simpl.
    + pose proof (K3 entry
        (<[Cloud.DOMAIN := <[entry_id entry := coordinator]>
                             (registry_of data)]> d2)) as Hd3.
      rewrite F in Hd3. simpl in Hd3. rewrite lookup_insert_eq in Hd3.
      split; [rewrite Hd3; eauto|]. split; [|by left].
      unfold registry_of at 1. by rewrite Hd3.
    + pose proof (K3 entry
        (<[Cloud.DOMAIN := <[entry_id entry := coordinator]>
                             (registry_of data)]> d2)) as Hd3.
      rewrite F in Hd3. simpl in Hd3. rewrite lookup_insert_eq in Hd3.
      split; [rewrite Hd3; eauto|]. split.
      * unfold registry_of at 1. by rewrite Hd3.
      * right. eexists _, _. split; [reflexivity|]. by rewrite F.
  - assert (d2 !! Cloud.DOMAIN = d1 !! Cloud.DOMAIN) as Hd2
      by (rewrite <- (K2 (built_coordinator id secret session) d1);
          by rewrite R).
    split; [rewrite Hd2, Hd1; done|]. split; [done|].
    rewrite <- Hreg. unfold registry_of. by rewrite Hd2, Hd1.
Qed.

(** Provided the host calls of the setup leave the dict of the domain in
    [hass.data] alone: a setup that returns has returned [True], has
    read the client id and the secret from the entry, and has filed the
    coordinator, as the first refresh left it, under the entry's id next
    to the coordinators that were registered before. *)
Theorem setup_registers_coordinator
    (host : Host) (data data' : hass_data) (entry : ConfigEntry)
    (ok : bool) :
  keeps_domain host →
  async_setup_entry CONF_ID CONF_SECRET host data entry = (Return ok, data') →
  ok = true
  ∧ ∃ id secret session d1 d2 coordinator,
      entry_data entry !! CONF_ID = Some id
      ∧ entry_data entry !! CONF_SECRET = Some secret
      ∧ get_async_client host (setdefault Cloud.DOMAIN data) = (session, d1)
      ∧ async_config_entry_first_refresh host
          (built_coordinator id secret session) d1
        = (Return coordinator, d2)
      ∧ registry_of data'
        = <[entry_id entry := coordinator]> (registry_of data).
Proof.
  intros K E. pose proof (setup_unfold host data entry K) as U.
  cbn zeta in U. rewrite E in U. simpl in U. destruct U as [_ U].
  destruct (entry_data entry !! CONF_ID) as [id|]; [|by destruct U].
  destruct (entry_data entry !! CONF_SECRET) as [secret|]; [|by destruct U].
  destruct (get_async_client host _) as [session d1] eqn:G. simpl in U.
  destruct (async_config_entry_first_refresh host _ d1)
    as [[coordinator|e] d2] eqn:R; simpl in U; [|by destruct U].
  destruct U as [Hr [[= ->]|(e & d & [=] & _)]].
  split; [done|]. exists id, secret, session, d1, d2, coordinator.
  repeat split; auto.
Qed.


(** Unloading undoes a setup, provided the host calls of the setup leave
    the dict of the domain in [hass.data] alone: after a successful
    setup of an entry that was not registered before, an unload whose
    platforms unload well returns [True] and leaves the domain with
    exactly the coordinators it had before the setup. *)
Theorem setup_then_unload
    (host host' : Host) (data data' : hass_data) (entry : ConfigEntry) :
  keeps_domain host →
  async_setup_entry CONF_ID CONF_SECRET host data entry = (Return true, data') →
  registry_of data !! entry_id entry = None →
  async_unload_platforms host' entry = Return true →
  ∃ data'',
    async_unload_entry host' data' entry = (Return true, data'')
    ∧ registry_of data'' = registry_of data.
Proof.
  intros K E Hfresh Hu. pose proof (setup_unfold host data entry K) as U.
  cbn zeta in U. rewrite E in U. simpl in U. destruct U as [[registry Hdom] U].
  assert (∃ coordinator,
            registry = <[entry_id entry := coordinator]> (registry_of data))
    as [coordinator ->].
  { assert (registry_of data' = registry) as <-
      by (unfold registry_of; by rewrite Hdom).
    destruct (entry_data entry !! CONF_ID) as [id|]; [|by destruct U].
    destruct (entry_data entry !! CONF_SECRET) as [secret|]; [|by destruct U].
    destruct (async_config_entry_first_refresh host _ _).1
      as [coordinator|e']; [|by destruct U].
    destruct U as [Hr _]. eauto. }
  unfold async_unload_entry. rewrite Hu, Hdom, lookup_insert_eq.
  eexists. split; [reflexivity|].
  unfold registry_of at 1. rewrite lookup_insert_eq. simpl.
  by apply delete_insert_id.
Qed.


End CloudEntryProperties.

(* ===================================================================== *)
(** ** Further properties of the Bluetooth config flow *)
(* ===================================================================== *)

Section BleFurther.
Import Ble.

Ltac unfold_flow :=
  unfold mbind, M_bind, mret, M_ret, bind, ret, raise, try_except, get, emit,
    getitem, async_set_unique_id, set_unique_id, set_discovered_device,
    set_discovered_devices_item, set_title_placeholders,
    async_abort, async_create_entry, async_show_form in *.

Ltac run_flow :=
  unfold handle_step, dispatch, async_step_bluetooth, async_step_user,
    async_step_bluetooth_confirm, _abort_if_unique_id_configured,
    _async_current_ids, fetch_or_abort in *;
  unfold_flow; simpl in *.

(** *** The fetch, case by case *)

Lemma fetch_unfold (hass : Host) (info : BluetoothServiceInfo) :
  (fetch_outcome hass info, fetch_events hass info)
  = match ble_device_from_address hass (address info) with
    | None =>
        (Raise {| exn_cls := AirthingsDeviceUpdateError;
                  args := ["No ble_device"] |},
         [ResolveHandle (address info);
          Log DEBUG "no ble_device in _get_device_data" []])
    | Some ble_device =>
        match update_device hass ble_device with
        | SdkReturn d =>
            (Return {| dd_device := d; dd_data := new_reader |},
             [ResolveHandle (address info); UpdateDevice ble_device])
        | SdkRaise err =>
            if is_BleakError err then
              (Raise {| exn_cls := AirthingsDeviceUpdateError;
                        args := ["Failed getting device data"] |},
               [ResolveHandle (address info); UpdateDevice ble_device;
                LogException ERROR
                  "Error connecting to and getting data from %s: %s"
                  [address info] err])
            else if is_Exception err then
              match args err with
              | arg0 :: _ =>
                  (Raise {| exn_cls := UnboundLocalError;
                            args := ["cannot access local variable 'device' where it is not associated with a value"] |},
                   [ResolveHandle (address info); UpdateDevice ble_device;
                    LogException ERROR "Unknown error occurred from %s: %s"
                      [address info] err;
                    Log ERROR "There was an error: %s" [arg0]])
              | [] =>
                  (Raise {| exn_cls := IndexError;
                            args := ["tuple index out of range"] |},
                   [ResolveHandle (address info); UpdateDevice ble_device;
                    LogException ERROR "Unknown error occurred from %s: %s"
                      [address info] err])
              end
            else
              (Raise err,
               [ResolveHandle (address info); UpdateDevice ble_device])
        end
    end.
Proof.
  unfold fetch_outcome, fetch_events, _get_device_data, try_update_device.
  unfold_flow. simpl.
  destruct (ble_device_from_address hass (address info)) as [ble_device|];
    simpl; [|done].
  destruct (update_device hass ble_device) as [d|err]; simpl; [done|].
  destruct (is_BleakError err); simpl; [done|].
  destruct (is_Exception err); simpl; [|done].
  by destruct (args err).
Qed.

Lemma fetch_events_resolve_once (hass : Host) (info : BluetoothServiceInfo) :
  resolved_addresses (fetch_events hass info) = [address info].
Proof.
  change (fetch_events hass info)
    with (fetch_outcome hass info, fetch_events hass info).2.
  rewrite fetch_unfold.
  destruct (ble_device_from_address hass (address info)); [|done].
  destruct (update_device hass _) as [|err]; [done|].
  destruct (is_BleakError err); [done|].
  destruct (is_Exception err); [|done]. by destruct (args err).
Qed.

(** A device-data fetch returns exactly when the host resolves a handle
    for the address and the SDK returns a device for it; it then
    returns that device and has logged nothing. *)
Theorem get_device_data_returns_iff
    (hass : Host) (info : BluetoothServiceInfo) (self : Flow)
    (result : DeviceAndData) :
  ((∃ self', _get_device_data hass info self = (Return result, self'))
   ↔ ∃ ble_device,
       ble_device_from_address hass (address info) = Some ble_device
       ∧ update_device hass ble_device = SdkReturn (dd_device result))
  ∧ (∀ ble_device,
       ble_device_from_address hass (address info) = Some ble_device →
       update_device hass ble_device = SdkReturn (dd_device result) →
       _get_device_data hass info self
       = (Return result,
          logged self [ResolveHandle (address info); UpdateDevice ble_device])).
Proof.
  rewrite get_device_data_frame.
  pose proof (fetch_unfold hass info) as U.
  destruct result as [d []]. simpl.
  destruct (ble_device_from_address hass (address info)) as [ble_device|].
  - destruct (update_device hass ble_device) as [d'|err] eqn:Hsdk.
    + injection U as -> ->. split.
      * split.
        -- intros [self' [= ->]]. eauto.
        -- intros (h & [= <-] & E). rewrite Hsdk in E. injection E as ->. eauto.
      * intros h [= <-] E. rewrite Hsdk in E. by injection E as ->.
    + split.
      * split.
        -- intros [self' [= E _]]. rewrite E in U. exfalso.
           destruct (is_BleakError err); [discriminate|].
           destruct (is_Exception err); [|discriminate].
           by destruct (args err).
        -- intros (h & [= <-] & E). congruence.
      * intros h [= <-] E. congruence.
  - injection U as -> ->. split.
    + split; [by intros [self' [=]]|by intros (h & [=] & _)].
    + intros; discriminate.
Qed.

(** *** The scan loop, run by run *)

Lemma scan_runs (hass : Host) (ids : gset string)
    (infos : list BluetoothServiceInfo) (self : Flow) :
  scan_run hass ids infos self
    (scan hass ids infos self).1 (scan hass ids infos self).2.
Proof.
  revert self. induction infos as [|info rest IH]; intros self.
  - constructor.
  - destruct (skipped ids (_discovered_devices self) info) eqn:E.
    + rewrite (scan_skip _ _ _ _ _ E). by apply run_skip.
    + rewrite (scan_candidate _ _ _ _ _ E). cbn zeta.
      destruct (fetch_outcome hass info) as [d|e] eqn:F.
      * eapply run_found; [exact E|exact F|apply IH].
      * destruct (is_Exception e) eqn:X; simpl.
        -- by apply run_abort.
        -- by apply run_raise.
Qed.

Lemma scan_run_of (hass : Host) (ids : gset string)
    (infos : list BluetoothServiceInfo) (self self' : Flow)
    (r : outcome (option ConfigFlowResult)) :
  scan hass ids infos self = (r, self') → scan_run hass ids infos self r self'.
Proof.
  intros E. pose proof (scan_runs hass ids infos self) as H.
  by rewrite E in H.
Qed.

Lemma not_skipped_fresh (ids : gset string) (D : gmap string Discovery)
    (info : BluetoothServiceInfo) :
  skipped ids D info = false →
  (address info ∉ ids) ∧ D !! address info = None
  ∧ is_Some (manufacturer_data info !! MFCT_ID)
  ∧ unknown_services info = false.
Proof.
  unfold skipped. rewrite !orb_false_iff, negb_false_iff.
  rewrite !bool_decide_eq_false, bool_decide_eq_true.
  intros [[[H1 H2] H3] H4]. repeat split; auto.
  by apply eq_None_not_Some.
Qed.

Lemma scan_run_keeps
    (hass : Host) (ids : gset string) (infos : list BluetoothServiceInfo)
    (self self' : Flow) (r : outcome (option ConfigFlowResult)) :
  scan_run hass ids infos self r self' →
  (∀ a d, _discovered_devices self !! a = Some d →
          _discovered_devices self' !! a = Some d)
  ∧ (∃ evs, trace self' = (trace self ++ evs)%list)
  ∧ unique_id self' = unique_id self
  ∧ _discovered_device self' = _discovered_device self
  ∧ title_placeholders self' = title_placeholders self.
Proof.
  intros H.
  induction H as [self|info rest self r self' Hs _ IH
                 |info rest self d r self' Hs Hf _ IH
                 |info rest self e Hs Hf He|info rest self e Hs Hf He].
  - repeat split; auto. exists []. by rewrite app_nil_r.
  - destruct IH as (Hd & [evs Ht] & Hu & Hdd & Htp). simpl in *.
    repeat split; auto. eexists. rewrite Ht, <- app_assoc. reflexivity.
  - destruct IH as (Hd & [evs Ht] & Hu & Hdd & Htp). simpl in *.
    apply not_skipped_fresh in Hs as (_ & Hfresh & _).
    repeat split; auto.
    + intros a dv Ha. apply Hd. rewrite lookup_insert_ne; [done|].
      intros <-. congruence.
    + eexists. rewrite Ht, <- app_assoc. reflexivity.
  - simpl. repeat split; eauto.
  - simpl. repeat split; eauto.
Qed.

(** The scan loop only adds: whatever way it ends, the devices
    discovered before are still stored unchanged, the trace has only
    grown, and the unique id, the selected device and the title
    placeholders of the flow are as they were. *)
Theorem scan_keeps_discoveries
    (hass : Host) (ids : gset string) (infos : list BluetoothServiceInfo)
    (self self' : Flow) (r : outcome (option ConfigFlowResult)) :
  scan hass ids infos self = (r, self') →
  (∀ a d, _discovered_devices self !! a = Some d →
          _discovered_devices self' !! a = Some d)
  ∧ (∃ evs, trace self' = (trace self ++ evs)%list)
  ∧ unique_id self' = unique_id self
  ∧ _discovered_device self' = _discovered_device self
  ∧ title_placeholders self' = title_placeholders self.
Proof. intros H%scan_run_of. by apply scan_run_keeps in H. Qed.

(** What the scan loop stores is sound: a device that is stored after a
    scan and was not before comes from one of the scanned
    advertisements, is filed under the address of that advertisement,
    which is not a configured id, carries manufacturer id 820 and passed
    the service test, and holds the device the fetch returned for it
    under the name [get_name] gives that device. *)
Theorem scan_new_discoveries
    (hass : Host) (ids : gset string) (infos : list BluetoothServiceInfo)
    (self self' : Flow) (r : outcome (option ConfigFlowResult))
    (a : string) (found : Discovery) :
  scan hass ids infos self = (r, self') →
  _discovered_devices self' !! a = Some found →
  _discovered_devices self !! a = None →
  discovery_info found ∈ infos
  ∧ address (discovery_info found) = a
  ∧ (a ∉ ids)
  ∧ is_Some (manufacturer_data (discovery_info found) !! MFCT_ID)
  ∧ unknown_services (discovery_info found) = false
  ∧ fetch_outcome hass (discovery_info found)
    = Return {| dd_device := device found; dd_data := new_reader |}
  ∧ name found
    = get_name {| dd_device := device found; dd_data := new_reader |}.
Proof.
  intros H%scan_run_of.
  induction H as [self|info rest self r self' Hs _ IH
                 |info rest self d r self' Hs Hf Hrun IH
                 |info rest self e Hs Hf He|info rest self e Hs Hf He];
    simpl in *; intros Hnew Hold; try congruence.
  - destruct (IH Hnew Hold) as (Hin & Rest). split; [by right|exact Rest].
  - apply not_skipped_fresh in Hs as (Hid & Hfresh & Hm & Hu).
    destruct (decide (address info = a)) as [<-|Hne].
    + apply scan_run_keeps in Hrun as (Keep & _).
      specialize (Keep (address info) (discovery_of info d)). simpl in Keep.
      rewrite lookup_insert_eq in Keep. specialize (Keep eq_refl).
      assert (found = discovery_of info d) as -> by congruence.
      simpl. destruct d as [dv []]. simpl in *.
      repeat split; auto. left.
    + rewrite lookup_insert_ne in IH by done.
      destruct (IH Hnew Hold) as (Hin & Rest). split; [by right|exact Rest].
Qed.

Lemma resolved_addresses_skip (ids : gset string)
    (D : gmap string Discovery) (info : BluetoothServiceInfo) :
  resolved_addresses (skip_events ids D info) = [].
Proof. unfold skip_events. by case_match. Qed.

Lemma resolved_addresses_app (evs evs' : list event) :
  resolved_addresses (evs ++ evs')
  = (resolved_addresses evs ++ resolved_addresses evs')%list.
Proof. apply omap_app. Qed.

Lemma scan_run_resolves
    (hass : Host) (ids : gset string) (infos : list BluetoothServiceInfo)
    (self self' : Flow) (r : outcome (option ConfigFlowResult)) :
  scan_run hass ids infos self r self' →
  ∃ evs,
    trace self' = (trace self ++ evs)%list
    ∧ NoDup (resolved_addresses evs)
    ∧ ∀ a, a ∈ resolved_addresses evs →
           (a ∉ ids) ∧ _discovered_devices self !! a = None
           ∧ ∃ info, info ∈ infos ∧ address info = a.
Proof.
  intros H.
  induction H as [self|info rest self r self' Hs _ IH
                 |info rest self d r self' Hs Hf _ IH
                 |info rest self e Hs Hf He|info rest self e Hs Hf He].
  - exists []. rewrite app_nil_r. split; [done|]. split; [constructor|].
    intros a Ha. by apply elem_of_nil in Ha.
  - destruct IH as (evs & Ht & Hnd & Hall). simpl in *.
    exists (skip_events ids (_discovered_devices self) info ++ evs)%list.
    rewrite resolved_addresses_app, resolved_addresses_skip. simpl.
    split; [by rewrite Ht, app_assoc|]. split; [done|].
    intros a Ha. destruct (Hall a Ha) as (H1 & H2 & info' & Hin & Hadd).
    repeat split; auto. exists info'. split; [by right|done].
  - destruct IH as (evs & Ht & Hnd & Hall). simpl in *.
    apply not_skipped_fresh in Hs as (Hid & Hfresh & _).
    exists ((Log DEBUG "Continuing with %s" [info_name info]
             :: fetch_events hass info) ++ evs)%list.
    rewrite resolved_addresses_app. cbn [resolved_addresses omap list_omap].
    fold (resolved_addresses (fetch_events hass info)).
    rewrite fetch_events_resolve_once. simpl.
    split; [by rewrite Ht, <- app_assoc|]. split.
    + constructor; [|done]. intros Ha.
      destruct (Hall _ Ha) as (_ & Hnone & _).
      by rewrite lookup_insert_eq in Hnone.
    + intros a [->|Ha]%elem_of_cons.
      * repeat split; auto. exists info. split; [left|done].
      * destruct (Hall a Ha) as (H1 & H2 & info' & Hin & Hadd).
        apply lookup_insert_None in H2 as [H2 _].
        repeat split; auto. exists info'. split; [by right|done].
  - apply not_skipped_fresh in Hs as (Hid & Hfresh & _).
    eexists. split; [reflexivity|].
    cbn [resolved_addresses omap list_omap].
    fold (resolved_addresses (fetch_events hass info)).
    rewrite fetch_events_resolve_once.
    split; [apply NoDup_singleton|].
    intros a ->%list_elem_of_singleton. repeat split; auto.
    exists info. split; [left|done].
  - apply not_skipped_fresh in Hs as (Hid & Hfresh & _).
    eexists. split; [reflexivity|].
    cbn [resolved_addresses omap list_omap].
    fold (resolved_addresses (fetch_events hass info)).
    rewrite fetch_events_resolve_once.
    split; [apply NoDup_singleton|].
    intros a ->%list_elem_of_singleton. repeat split; auto.
    exists info. split; [left|done].
Qed.

(** One scan asks for the handle of an address at most once, however
    often the address is advertised, and only for addresses of scanned
    advertisements that are neither configured nor discovered before. *)
Theorem scan_resolves_each_address_once
    (hass : Host) (ids : gset string) (infos : list BluetoothServiceInfo)
    (self self' : Flow) (r : outcome (option ConfigFlowResult)) :
  scan hass ids infos self = (r, self') →
  ∃ evs,
    trace self' = (trace self ++ evs)%list
    ∧ NoDup (resolved_addresses evs)
    ∧ ∀ a, a ∈ resolved_addresses evs →
           (a ∉ ids) ∧ _discovered_devices self !! a = None
           ∧ ∃ info, info ∈ infos ∧ address info = a.
Proof. intros H%scan_run_of. exact (scan_run_resolves _ _ _ _ _ _ H). Qed.

Lemma scan_run_ends
    (hass : Host) (ids : gset string) (infos : list BluetoothServiceInfo)
    (self self' : Flow) (r : outcome (option ConfigFlowResult)) :
  scan_run hass ids infos self r self' →
  match r with
  | Return None => True
  | Return (Some result) =>
      result = AbortResult "cannot_connect" ∨ result = AbortResult "unknown"
  | Raise e => is_Exception e = false
  end.
Proof.
  intros H.
  induction H as [self|info rest self r self' Hs _ IH
                 |info rest self d r self' Hs Hf _ IH
                 |info rest self e Hs Hf He|info rest self e Hs Hf He];
    auto.
  unfold abort_reason. destruct (is_AirthingsDeviceUpdateError e); auto.
Qed.

Lemma uncaught_stays_raised (e : exn) (self : Flow) :
  is_Exception e = false →
  match exn_cls e, args e with
  | AbortFlow, reason :: _ => (Return (async_abort reason), self)
  | _, _ => (Raise e, self)
  end = (Raise e, self).
Proof. unfold is_Exception. by destruct (exn_cls e), (args e). Qed.

(** *** The user step *)

(** When the user step shows its form, the form is the one of step
    [user], it offers exactly the devices the flow has discovered, each
    under its name, there is at least one of them, and none that was
    discovered before is lost. *)
Theorem user_form_offers_discoveries
    (hass : Host) (self self' : Flow) (step_id : string)
    (schema placeholders : option (gmap string string))
    (last : option bool) :
  handle_step hass (StepUser None) self
  = (Return (FormResult step_id schema placeholders last), self') →
  step_id = "user"
  ∧ schema = Some (name <$> _discovered_devices self')
  ∧ placeholders = None ∧ last = None
  ∧ _discovered_devices self' ≠ ∅
  ∧ ∀ a d, _discovered_devices self !! a = Some d →
           _discovered_devices self' !! a = Some d.
Proof.
  run_flow.
  destruct (scan hass (current_ids hass) (discovered_service_info hass) _)
    as [[[result|]|e] reached] eqn:E; simpl.
  - apply scan_run_of, scan_run_ends in E as [->| ->]; discriminate.
  - apply scan_run_of, scan_run_keeps in E as (Keep & _).
    case_bool_decide as He; [discriminate|].
    intros [= <- <- <- <- <-]. repeat split; auto.
  - apply scan_run_of, scan_run_ends in E.
    rewrite (uncaught_stays_raised _ _ E). discriminate.
Qed.

(** A scan that finds nothing new on a flow that has discovered devices
    before does not abort: it shows the form with the devices known so
    far, and makes no fetch. *)
Theorem user_rescan_shows_known_devices (hass : Host) (self : Flow) :
  _discovered_devices self ≠ ∅ →
  Forall (filtered_out (current_ids hass) (_discovered_devices self))
    (discovered_service_info hass) →
  ∃ self',
    handle_step hass (StepUser None) self
    = (Return (FormResult "user" (Some (name <$> _discovered_devices self))
                 None None), self')
    ∧ _discovered_devices self' = _discovered_devices self
    ∧ fetches (trace self') = fetches (trace self).
Proof.
  intros Hsome Hall. run_flow.
  change (_ (_ self) (_ self) (_ self) (_ self)
            (trace self ++ [Log DEBUG "async_step_user" []])%list)
    with (logged self [Log DEBUG "async_step_user" []]).
  destruct (scan_all_skipped hass (current_ids hass)
              (discovered_service_info hass)
              (logged self [Log DEBUG "async_step_user" []]) Hall)
    as (evs & Hq & ->).
  rewrite logged_logged. simpl.
  rewrite bool_decide_eq_false_2 by done. simpl.
  eexists. split; [reflexivity|]. split; [reflexivity|].
  apply fetches_logged_quiet. by constructor.
Qed.

(** Selecting a discovered device that needs no firmware upgrade and
    whose address is not configured creates the entry: its title is the
    name stored for the device, its data are empty, and the flow keeps
    the address as unique id, the device as the selected one and the
    name as title placeholder. *)
Theorem user_select_creates_entry
    (hass : Host) (input : gmap string string) (chosen : string)
    (self : Flow) (discovery : Discovery) :
  input !! CONF_ADDRESS = Some chosen →
  chosen ∉ current_ids hass →
  _discovered_devices self !! chosen = Some discovery →
  need_fw_upgrade (firmware (device discovery)) = false →
  ∃ self',
    handle_step hass (StepUser (Some input)) self
    = (Return (CreateEntryResult (name discovery) ∅), self')
    ∧ unique_id self' = Some chosen
    ∧ _discovered_device self' = Some discovery
    ∧ title_placeholders self' = Some {[ "name" := name discovery ]}
    ∧ _discovered_devices self' = _discovered_devices self
    ∧ fetches (trace self') = fetches (trace self).
Proof.
  intros Hin Hnew Hd Hfw. run_flow. rewrite Hin. simpl.
  rewrite bool_decide_eq_false_2 by done. simpl. rewrite Hd. simpl.
  rewrite Hfw. simpl. eexists. split; [reflexivity|]. simpl.
  repeat split; auto.
  unfold fetches. rewrite <- app_assoc, List.filter_app. simpl.
  apply app_nil_r.
Qed.

(** A submission that names an address the flow has not discovered
    fails with [KeyError] of that address; by then the address has been
    made the unique id of the flow.  No entry is created and no fetch is
    made. *)
Theorem user_select_unknown_address
    (hass : Host) (input : gmap string string) (chosen : string)
    (self : Flow) :
  input !! CONF_ADDRESS = Some chosen →
  chosen ∉ current_ids hass →
  _discovered_devices self !! chosen = None →
  ∃ self',
    handle_step hass (StepUser (Some input)) self
    = (Raise {| exn_cls := KeyError; args := [chosen] |}, self')
    ∧ unique_id self' = Some chosen
    ∧ _discovered_devices self' = _discovered_devices self
    ∧ fetches (trace self') = fetches (trace self).
Proof.
  intros Hin Hnew Hd. run_flow. rewrite Hin. simpl.
  rewrite bool_decide_eq_false_2 by done. simpl. rewrite Hd. simpl.
  eexists. split; [reflexivity|]. simpl. repeat split; auto.
  unfold fetches. rewrite List.filter_app. simpl. apply app_nil_r.
Qed.

(** *** The bluetooth step *)

Ltac settle :=
  repeat match goal with
         | H : _ ∨ _ |- _ => destruct H
         | H : ∃ _, _ |- _ => destruct H
         | H : _ ∧ _ |- _ => destruct H
         end;
  simplify_eq; try congruence; try discriminate.

Lemma fetch_outcome_cases (hass : Host) (info : BluetoothServiceInfo) :
  fetch_outcome hass info
  = match ble_device_from_address hass (address info) with
    | None =>
        Raise {| exn_cls := AirthingsDeviceUpdateError;
                 args := ["No ble_device"] |}
    | Some ble_device =>
        match update_device hass ble_device with
        | SdkReturn d => Return {| dd_device := d; dd_data := new_reader |}
        | SdkRaise err =>
            if is_BleakError err then
              Raise {| exn_cls := AirthingsDeviceUpdateError;
                       args := ["Failed getting device data"] |}
            else if is_Exception err then
              match args err with
              | _ :: _ =>
                  Raise {| exn_cls := UnboundLocalError;
                           args := ["cannot access local variable 'device' where it is not associated with a value"] |}
              | [] =>
                  Raise {| exn_cls := IndexError;
                           args := ["tuple index out of range"] |}
              end
            else Raise err
        end
    end.
Proof.
  change (fetch_outcome hass info)
    with (fetch_outcome hass info, fetch_events hass info).1.
  rewrite fetch_unfold.
  destruct (ble_device_from_address hass (address info)); [|done].
  destruct (update_device hass _) as [|err]; [done|].
  destruct (is_BleakError err); [done|].
  destruct (is_Exception err); [|done]. by destruct (args err).
Qed.

(** For an address that is not configured, the bluetooth step ends in
    the abort [cannot_connect] exactly when the host resolves no handle
    for the address or the SDK raises a [BleakError], and in the abort
    [unknown] exactly when the SDK raises another exception. *)
Theorem bluetooth_abort_reason_iff
    (hass : Host) (info : BluetoothServiceInfo) (self : Flow) :
  address info ∉ current_ids hass →
  ((handle_step hass (StepBluetooth info) self).1
   = Return (AbortResult "cannot_connect")
   ↔ ble_device_from_address hass (address info) = None
     ∨ ∃ ble_device err,
         ble_device_from_address hass (address info) = Some ble_device
         ∧ update_device hass ble_device = SdkRaise err
         ∧ is_BleakError err = true)
  ∧ ((handle_step hass (StepBluetooth info) self).1
     = Return (AbortResult "unknown")
     ↔ ∃ ble_device err,
         ble_device_from_address hass (address info) = Some ble_device
         ∧ update_device hass ble_device = SdkRaise err
         ∧ is_BleakError err = false ∧ is_Exception err = true).
Proof.
  intros Hnew. rewrite bluetooth_step_result, fetch_outcome_cases.
  rewrite bool_decide_eq_false_2 by done.
  assert (∀ e, exn_cls e = UnboundLocalError ∨ exn_cls e = IndexError →
               is_Exception e = true ∧ abort_reason e = "unknown") as U.
  { intros e [E|E]; unfold is_Exception, abort_reason,
      is_AirthingsDeviceUpdateError; by rewrite E. }
  destruct (ble_device_from_address hass (address info)) as [h|];
    [|split; split; intros; settle; auto].
  destruct (update_device hass h) as [d|err] eqn:Hsdk;
    [split; split; intros; settle|].
  destruct (is_BleakError err) eqn:Hb;
    [split; split; intros; settle; eauto 8|].
  destruct (is_Exception err) eqn:Hx.
  - destruct (args err);
      (match goal with
       | |- context [is_Exception ?e] =>
           destruct (U e) as [-> ->]; [simpl; auto|]
       end); split; split; intros; settle; eauto 8.
  - assert (∀ reason,
              match exn_cls err, args err with
              | AbortFlow, r :: _ => Return (AbortResult r)
              | _, _ => Raise err
              end ≠ Return (AbortResult reason)) as N.
    { intros reason. unfold is_Exception in Hx.
      by destruct (exn_cls err), (args err). }
    cbn beta iota. rewrite Hx.
    split; split; intros H; try (by apply N in H); settle.
Qed.

(** What is raised by the SDK and is no [Exception] (a cancellation) is
    not turned into an abort and not logged: it leaves the fetch and the
    bluetooth step as it is. *)
Theorem bluetooth_passes_non_exceptions
    (hass : Host) (info : BluetoothServiceInfo) (self : Flow)
    (ble_device : BLEDevice) (err : exn) :
  address info ∉ current_ids hass →
  ble_device_from_address hass (address info) = Some ble_device →
  update_device hass ble_device = SdkRaise err →
  is_Exception err = false →
  _get_device_data hass info self
  = (Raise err,
     logged self [ResolveHandle (address info); UpdateDevice ble_device])
  ∧ (handle_step hass (StepBluetooth info) self).1 = Raise err.
Proof.
  intros Hnew Hh Hsdk Hx.
  assert (is_BleakError err = false) as Hb.
  { unfold is_Exception in Hx. unfold is_BleakError.
    by destruct (exn_cls err). }
  pose proof (fetch_unfold hass info) as U.
  rewrite Hh, Hsdk, Hb, Hx in U. injection U as Ho He.
  split.
  - by rewrite get_device_data_frame, Ho, He.
  - rewrite bluetooth_step_result, Ho, Hx.
    rewrite bool_decide_eq_false_2 by done.
    unfold is_Exception in Hx. by destruct (exn_cls err), (args err).
Qed.

(** *** All steps *)

(** The aborts of the user step and of the confirmation step: a scan
    of the user step aborts with one of [cannot_connect], [unknown],
    [no_devices_found]; a submission of the user step with one of
    [already_configured], [firmware_upgrade_required]; the confirmation
    step never aborts. *)
Theorem abort_reasons_of_user_and_confirm_steps
    (hass : Host) (self : Flow) (reason : string) :
  (∀ user_input,
     (handle_step hass (StepBluetoothConfirm user_input) self).1
     ≠ Return (AbortResult reason))
  ∧ ((handle_step hass (StepUser None) self).1 = Return (AbortResult reason) →
     reason ∈ ["cannot_connect"; "unknown"; "no_devices_found"])
  ∧ (∀ input,
       (handle_step hass (StepUser (Some input)) self).1
       = Return (AbortResult reason) →
       reason ∈ ["already_configured"; "firmware_upgrade_required"]).
Proof.
  split; [|split].
  - intros input. run_flow.
    destruct input, (title_placeholders self) as [ph|]; simpl;
      try discriminate.
    by destruct (ph !! "name").
  - run_flow.
    destruct (scan hass (current_ids hass) (discovered_service_info hass) _)
      as [[[result|]|e] reached] eqn:E; simpl.
    + apply scan_run_of, scan_run_ends in E as [->| ->];
        intros [= <-]; set_solver.
    + case_bool_decide; [|discriminate]. intros [= <-]. set_solver.
    + apply scan_run_of, scan_run_ends in E.
      by rewrite (uncaught_stays_raised _ _ E).
  - intros input.
    destruct (input !! CONF_ADDRESS) as [chosen|] eqn:Hin.
    + destruct (user_select_result hass input chosen self Hin) as [-> _].
      case_bool_decide; [intros [= <-]; set_solver|].
      destruct (_discovered_devices self !! chosen) as [d|]; [|discriminate].
      destruct (need_fw_upgrade _); [|discriminate].
      intros [= <-]. set_solver.
    + by rewrite user_select_without_address.
Qed.

(** Who creates an entry: only the confirmation step called with an
    input, with the title the flow holds as placeholder [name], and a
    submission of the user step, for a discovered device that needs no
    firmware upgrade and whose address is not configured, with the name
    stored for it.  The data of a created entry are always empty. *)
Theorem entry_creation_by_step
    (hass : Host) (call : step_call) (self : Flow)
    (title : string) (data : gmap string string) :
  (handle_step hass call self).1 = Return (CreateEntryResult title data) →
  data = ∅
  ∧ ((∃ input placeholders,
        call = StepBluetoothConfirm (Some input)
        ∧ title_placeholders self = Some placeholders
        ∧ placeholders !! "name" = Some title)
     ∨ (∃ input chosen discovery,
          call = StepUser (Some input)
          ∧ input !! CONF_ADDRESS = Some chosen
          ∧ (chosen ∉ current_ids hass)
          ∧ _discovered_devices self !! chosen = Some discovery
          ∧ need_fw_upgrade (firmware (device discovery)) = false
          ∧ title = name discovery)).
Proof.
  destruct call as [info|input|[input|]].
  - rewrite bluetooth_step_result. case_bool_decide; [discriminate|].
    destruct (fetch_outcome hass info) as [d|e]; [discriminate|].
    destruct (is_Exception e); [discriminate|].
    by destruct (exn_cls e), (args e).
  - run_flow. destruct input as [input|],
      (title_placeholders self) as [ph|] eqn:Hp; simpl; try discriminate.
    destruct (ph !! "name") as [t|] eqn:Ht; simpl; [|discriminate].
    intros [= <- <-]. split; [done|]. left. eauto.
  - destruct (input !! CONF_ADDRESS) as [chosen|] eqn:Hin.
    + destruct (user_select_result hass input chosen self Hin) as [-> _].
      case_bool_decide as Hid; [discriminate|].
      destruct (_discovered_devices self !! chosen) as [d|] eqn:Hd;
        [|discriminate].
      destruct (need_fw_upgrade _) eqn:Hfw; [discriminate|].
      intros [= <- <-]. split; [done|]. right. exists input, chosen, d.
      repeat split; assumption.
    + by rewrite user_select_without_address.
  - intros H. by apply user_scan_never_creates in H.
Qed.

(** When the scan of the user step reaches an advertisement it does not
    pass over and the fetch for it raises something that is no
    [Exception], the step does not abort: what was raised leaves the
    step as it is. *)
Theorem user_scan_passes_non_exceptions
    (hass : Host) (self reached : Flow)
    (before after : list BluetoothServiceInfo) (info : BluetoothServiceInfo)
    (e : exn) :
  discovered_service_info hass = (before ++ info :: after)%list →
  scan hass (current_ids hass) before
    (logged self [Log DEBUG "async_step_user" []])
  = (Return None, reached) →
  ¬ filtered_out (current_ids hass) (_discovered_devices reached) info →
  fetch_outcome hass info = Raise e →
  is_Exception e = false →
  (handle_step hass (StepUser None) self).1 = Raise e.
Proof.
  intros Hvisible Hbefore Hcand Hfetch Hexc. run_flow.
  change (_ (_ self) (_ self) (_ self) (_ self)
            (trace self ++ [Log DEBUG "async_step_user" []])%list)
    with (logged self [Log DEBUG "async_step_user" []]).
  rewrite Hvisible, scan_app, Hbefore.
  rewrite <- skipped_spec in Hcand. apply not_true_is_false in Hcand.
  rewrite (scan_candidate _ _ _ _ _ Hcand). cbn zeta.
  rewrite Hfetch, Hexc. simpl.
  unfold is_Exception in Hexc. by destruct (exn_cls e), (args e).
Qed.

(** *** The confirmation step *)

Lemma confirm_shows_form (hass : Host) (self : Flow)
    (placeholders : gmap string string) :
  title_placeholders self = Some placeholders →
  handle_step hass (StepBluetoothConfirm None) self
  = (Return (FormResult "bluetooth_confirm" None (Some placeholders)
               (Some true)),
     logged self [Log DEBUG "async_step_bluetooth_confirm" []]).
Proof.
  intros H. run_flow. rewrite H. unfold logged. simpl. by rewrite H.
Qed.

(** The confirmation form can be shown any number of times: each call
    without input shows the same form again, and the call with an input
    that follows creates the entry under the placeholder [name]. *)
Theorem confirmation_can_be_shown_again
    (hosts : list Host) (hass : Host) (input : gmap string string)
    (self : Flow) (placeholders : gmap string string) (title : string) :
  title_placeholders self = Some placeholders →
  placeholders !! "name" = Some title →
  session
    (((fun h => (h, StepBluetoothConfirm None)) <$> hosts)
     ++ [(hass, StepBluetoothConfirm (Some input))])%list self
  = (((fun _ => Return (FormResult "bluetooth_confirm" None
                          (Some placeholders) (Some true))) <$> hosts)
     ++ [Return (CreateEntryResult title ∅)])%list.
Proof.
  intros Hp Hn. revert self Hp.
  induction hosts as [|h hosts IH]; intros self Hp.
  - simpl. run_flow. rewrite Hp. simpl. by rewrite Hn.
  - rewrite !fmap_cons. cbn [app session].
    rewrite (confirm_shows_form h self placeholders Hp). f_equal.
    by apply IH.
Qed.

(** The confirmation step needs the bluetooth step before it: on a flow
    that holds no title placeholders it fails with [KeyError], with or
    without input, and creates nothing. *)
Theorem confirmation_without_discovery_fails
    (hass : Host) (user_input : option (gmap string string)) (self : Flow) :
  title_placeholders self = None →
  handle_step hass (StepBluetoothConfirm user_input) self
  = (Raise {| exn_cls := KeyError; args := ["title_placeholders"] |},
     logged self [Log DEBUG "async_step_bluetooth_confirm" []]).
Proof.
  intros H. run_flow. rewrite H. unfold logged. simpl. rewrite H.
  by destruct user_input.
Qed.

End BleFurther.

(* ===================================================================== *)
(** ** The further properties at the sample data *)
(* ===================================================================== *)

Section FurtherInstances.
Import Sample.

Lemma setup_unique_ids_at_mirrored :
  Cloud._id humidity_entity = Cloud._id humidity_entity_renamed
  ∧ Cloud.entity_description humidity_entity
    = Cloud.entity_description humidity_entity_renamed.
Proof.
  apply (setup_unique_ids_determine_entity mirrored humidity_entity
           humidity_entity_renamed).
  - vm_compute. repeat constructor.
  - vm_compute. repeat constructor.
  - reflexivity.
Defined.

Lemma setup_entities_available_at_polled :
  Cloud.available polled humidity_entity = Cloud.Got true
  ∧ ∃ s, s ∈ Cloud.sensors wave
         ∧ Cloud.sensor_type s
           = Cloud.key (Cloud.entity_description humidity_entity)
         ∧ Cloud.native_value polled humidity_entity
           = Cloud.Got (Cloud.value s).
Proof.
  apply (setup_entities_available polled wave humidity_entity).
  - vm_compute. reflexivity.
  - vm_compute. repeat constructor.
Defined.

Lemma cloud_host_keeps_domain : keeps_domain cloud_host.
Proof.
  repeat split; intros; simpl; try reflexivity.
  by apply lookup_insert_ne.
Defined.


Lemma setup_registers_coordinator_at_account :
  is_Some
    (registry_of
       (CloudEntry.async_setup_entry "id" "secret" cloud_host ∅ account).2
     !! CloudEntry.entry_id account).
Proof.
  destruct (setup_registers_coordinator "id" "secret" cloud_host ∅
              (CloudEntry.async_setup_entry "id" "secret" cloud_host ∅
                 account).2
              account true)
    as (_ & id & secret & session & d1 & d2 & coordinator
        & _ & _ & _ & _ & Hr).
  - exact cloud_host_keeps_domain.
  - vm_compute. reflexivity.
  - rewrite Hr, lookup_insert_eq. eauto.
Defined.


Lemma setup_then_unload_at_account :
  ∃ data'',
    CloudEntry.async_unload_entry cloud_host
      (CloudEntry.async_setup_entry "id" "secret" cloud_host ∅ account).2
      account
    = (CloudEntry.Return true, data'')
    ∧ registry_of data'' = registry_of ∅.
Proof.
  apply (setup_then_unload "id" "secret" cloud_host cloud_host ∅).
  - exact cloud_host_keeps_domain.
  - vm_compute. reflexivity.
  - reflexivity.
  - reflexivity.
Defined.


Import Ble.

Lemma scan_keeps_discoveries_at_fresh :
  unique_id (scan fresh_host ∅ [adv1; adv1] new_flow).2 = None
  ∧ _discovered_device (scan fresh_host ∅ [adv1; adv1] new_flow).2 = None.
Proof.
  destruct (scan_keeps_discoveries fresh_host ∅ [adv1; adv1] new_flow
              (scan fresh_host ∅ [adv1; adv1] new_flow).2
              (scan fresh_host ∅ [adv1; adv1] new_flow).1)
    as (_ & _ & Hu & Hd & _).
  - vm_compute. reflexivity.
  - split; assumption.
Defined.

Lemma scan_new_discoveries_at_fresh :
  fetch_outcome fresh_host (discovery_info found_adv1)
  = Return {| dd_device := device found_adv1; dd_data := new_reader |}
  ∧ name found_adv1
    = get_name {| dd_device := device found_adv1; dd_data := new_reader |}.
Proof.
  destruct (scan_new_discoveries fresh_host ∅ [adv1] new_flow
              (scan fresh_host ∅ [adv1] new_flow).2
              (scan fresh_host ∅ [adv1] new_flow).1
              "AA:BB:CC:00:00:01" found_adv1)
    as (_ & _ & _ & _ & _ & Hf & Hn).
  - vm_compute. reflexivity.
  - vm_compute. reflexivity.
  - reflexivity.
  - split; assumption.
Defined.

Lemma scan_resolves_each_address_once_at_fresh :
  ∃ evs,
    trace (scan fresh_host ∅ [adv1; adv1] new_flow).2
    = (trace new_flow ++ evs)%list
    ∧ NoDup (resolved_addresses evs)
    ∧ ∀ a, a ∈ resolved_addresses evs →
           (a ∉ (∅ : gset string)) ∧ _discovered_devices new_flow !! a = None
           ∧ ∃ info, info ∈ [adv1; adv1] ∧ address info = a.
Proof.
  apply (scan_resolves_each_address_once fresh_host ∅ [adv1; adv1] new_flow
           (scan fresh_host ∅ [adv1; adv1] new_flow).2
           (scan fresh_host ∅ [adv1; adv1] new_flow).1).
  vm_compute. reflexivity.
Defined.

Lemma user_form_offers_discoveries_at_fresh :
  _discovered_devices scanned_fresh ≠ ∅.
Proof.
  destruct (user_form_offers_discoveries fresh_host new_flow scanned_fresh
              "user"
              (Some {[ "AA:BB:CC:00:00:01" := "Airthings Wave Plus (123456)" ]})
              None None)
    as (_ & _ & _ & _ & H & _).
  - vm_compute. reflexivity.
  - exact H.
Defined.

Lemma user_rescan_shows_known_devices_at_fresh :
  ∃ self',
    handle_step fresh_host (StepUser None) scanned_fresh
    = (Return (FormResult "user"
                 (Some (name <$> _discovered_devices scanned_fresh))
                 None None), self')
    ∧ _discovered_devices self' = _discovered_devices scanned_fresh
    ∧ fetches (trace self') = fetches (trace scanned_fresh).
Proof.
  apply (user_rescan_shows_known_devices fresh_host scanned_fresh).
  - intros H.
    assert (_discovered_devices scanned_fresh !! "AA:BB:CC:00:00:01" = None)
      as N by (rewrite H; apply lookup_empty).
    vm_compute in N. discriminate N.
  - apply List.Forall_cons; [|apply List.Forall_nil].
    apply skipped_spec. vm_compute. reflexivity.
Defined.

Lemma user_select_creates_entry_at_fresh :
  ∃ self',
    handle_step fresh_host (StepUser (Some choose_adv1)) scanned_fresh
    = (Return (CreateEntryResult (name found_adv1) ∅), self')
    ∧ unique_id self' = Some "AA:BB:CC:00:00:01"
    ∧ _discovered_device self' = Some found_adv1
    ∧ title_placeholders self' = Some {[ "name" := name found_adv1 ]}
    ∧ _discovered_devices self' = _discovered_devices scanned_fresh
    ∧ fetches (trace self') = fetches (trace scanned_fresh).
Proof.
  apply (user_select_creates_entry fresh_host choose_adv1
           "AA:BB:CC:00:00:01" scanned_fresh found_adv1).
  - vm_compute. reflexivity.
  - simpl. apply not_elem_of_empty.
  - vm_compute. reflexivity.
  - reflexivity.
Defined.

Lemma user_select_unknown_address_at_new_flow :
  ∃ self',
    handle_step fresh_host (StepUser (Some choose_adv1)) new_flow
    = (Raise {| exn_cls := KeyError; args := ["AA:BB:CC:00:00:01"] |}, self')
    ∧ unique_id self' = Some "AA:BB:CC:00:00:01"
    ∧ _discovered_devices self' = _discovered_devices new_flow
    ∧ fetches (trace self') = fetches (trace new_flow).
Proof.
  apply (user_select_unknown_address fresh_host choose_adv1
           "AA:BB:CC:00:00:01" new_flow).
  - vm_compute. reflexivity.
  - simpl. apply not_elem_of_empty.
  - reflexivity.
Defined.

Lemma bluetooth_abort_reason_at_unreachable :
  (handle_step unreachable_host (StepBluetooth adv1) new_flow).1
  = Return (AbortResult "cannot_connect").
Proof.
  destruct (bluetooth_abort_reason_iff unreachable_host adv1 new_flow)
    as [[_ H] _].
  - simpl. apply not_elem_of_empty.
  - apply H. right.
    exists {| ble_address := "AA:BB:CC:00:00:01" |}, timeout.
    repeat split.
Defined.

Lemma bluetooth_passes_non_exceptions_at_cancelled :
  _get_device_data cancelled_host adv1 new_flow
  = (Raise cancelled,
     logged new_flow
       [ResolveHandle (address adv1);
        UpdateDevice {| ble_address := "AA:BB:CC:00:00:01" |}])
  ∧ (handle_step cancelled_host (StepBluetooth adv1) new_flow).1
    = Raise cancelled.
Proof.
  apply (bluetooth_passes_non_exceptions cancelled_host adv1 new_flow
           {| ble_address := "AA:BB:CC:00:00:01" |} cancelled).
  - simpl. apply not_elem_of_empty.
  - reflexivity.
  - reflexivity.
  - reflexivity.
Defined.

Lemma entry_creation_by_step_at_fresh :
  (∅ : gmap string string) = ∅
  ∧ ((∃ input placeholders,
        StepUser (Some choose_adv1) = StepBluetoothConfirm (Some input)
        ∧ title_placeholders scanned_fresh = Some placeholders
        ∧ placeholders !! "name" = Some "Airthings Wave Plus (123456)")
     ∨ (∃ input chosen discovery,
          StepUser (Some choose_adv1) = StepUser (Some input)
          ∧ input !! CONF_ADDRESS = Some chosen
          ∧ (chosen ∉ current_ids fresh_host)
          ∧ _discovered_devices scanned_fresh !! chosen = Some discovery
          ∧ need_fw_upgrade (firmware (device discovery)) = false
          ∧ "Airthings Wave Plus (123456)" = name discovery)).
Proof.
  apply (entry_creation_by_step fresh_host (StepUser (Some choose_adv1))
           scanned_fresh "Airthings Wave Plus (123456)" ∅).
  vm_compute. reflexivity.
Defined.

Lemma confirmation_can_be_shown_again_at_fresh :
  session
    [ (fresh_host, StepBluetoothConfirm None);
      (configured_host, StepBluetoothConfirm None);
      (fresh_host, StepBluetoothConfirm (Some ∅)) ] announced_fresh
  = [ Return (FormResult "bluetooth_confirm" None
                (Some {[ "name" := "Airthings Wave Plus (123456)" ]})
                (Some true));
      Return (FormResult "bluetooth_confirm" None
                (Some {[ "name" := "Airthings Wave Plus (123456)" ]})
                (Some true));
      Return (CreateEntryResult "Airthings Wave Plus (123456)" ∅) ].
Proof.
  apply (confirmation_can_be_shown_again [fresh_host; configured_host]
           fresh_host ∅ announced_fresh
           {[ "name" := "Airthings Wave Plus (123456)" ]}
           "Airthings Wave Plus (123456)").
  - vm_compute. reflexivity.
  - vm_compute. reflexivity.
Defined.

Lemma confirmation_without_discovery_fails_at_new_flow :
  handle_step fresh_host (StepBluetoothConfirm (Some ∅)) new_flow
  = (Raise {| exn_cls := KeyError; args := ["title_placeholders"] |},
     logged new_flow [Log DEBUG "async_step_bluetooth_confirm" []]).
Proof.
  apply (confirmation_without_discovery_fails fresh_host (Some ∅) new_flow).
  reflexivity.
Defined.

Lemma user_scan_passes_non_exceptions_at_interrupted :
  (handle_step interrupted_host (StepUser None) new_flow).1 = Raise cancelled.
Proof.
  apply (user_scan_passes_non_exceptions interrupted_host new_flow
           interrupted_reached [adv1] [adv3] adv2 cancelled).
  - reflexivity.
  - vm_compute. reflexivity.
  - intros H. apply skipped_spec in H. vm_compute in H. discriminate H.
  - vm_compute. reflexivity.
  - reflexivity.
Defined.

Example setup_keeps_the_http_client_key :
  (CloudEntry.async_setup_entry "id" "secret" cloud_host ∅ account).2
  !! "httpx_async_client" = Some ∅
  ∧ (CloudEntry.async_setup_entry "id" "secret" offline_cloud_host ∅
       account).2 !! "httpx_async_client" = Some ∅.
Proof. split; vm_compute; reflexivity. Qed.

End FurtherInstances.
